(** * MyGPyOpt.optimization.acquisition_optimizer

    A shallow embedding of [acquisition_optimizer.py]: the context manager
    ([ContextManager.__init__], [ContextManager._expand_vector]) and the
    orchestrator ([AcquisitionOptimizer.__init__],
    [AcquisitionOptimizer.optimize]), with the properties the specification
    states about them.

    Conventions.
    - Python exceptions are values [Exn cls]; a computation that may raise
      returns [result A = exn + A].
    - The coordinates of a point and the entries of an array are modelled
      by the rationals they denote; an input to [_expand_vector] is read
      as the float64 values its entries have once assigned into the
      float64 result. The value of an objective is a float64 scalar as
      numpy compares it: a number, an infinity or NaN ([np.float]).
    - Index lists ([all_index], [context_index], ...) hold positions, as
      produced by [range] and by the design space: naturals.
    - A 2-D numpy array is a shape together with its rows.
    - [optimize] runs in a heap holding [self], the duplicate manager and
      standard output. The functions imported from [.optimizer] and
      [.anchor_points_generator] are parameters; what they receive by
      reference they hand back in the state they leave it in. Where a
      property depends on what these functions do to the managers, they
      are taken as the specification describes them
      ([QueryingCollaborators]). *)

From Stdlib Require Import QArith.
From stdpp Require Import gmap strings list pretty.

Open Scope string_scope.
Open Scope list_scope.
Open Scope nat_scope.

(** ** Exceptions *)

Inductive exn := Exn (cls : string).

Global Instance exn_eq_dec : EqDecision exn.
Proof. solve_decision. Defined.

Abbreviation result := (sum exn).

Definition ValueError : exn := Exn "ValueError".
Definition IndexError : exn := Exn "IndexError".
Definition KeyError : exn := Exn "KeyError".
Definition AttributeError : exn := Exn "AttributeError".
Definition UnboundLocalError : exn := Exn "UnboundLocalError".

Global Instance result_ret : MRet result := λ A a, inr a.

Global Instance result_bind : MBind result := λ A B k c,
  match c with
  | inl e => inl e
  | inr a => k a
  end.

(** ** The fragment of numpy the module uses *)

Module np.

Record ndarray := NdArray
  { shape0 : nat;
    shape1 : nat;
    rows : list (list Q) }.

(** The rows agree with the declared shape. *)
Definition well_shaped (a : ndarray) : Prop :=
  length (rows a) = shape0 a ∧ Forall (λ r, length r = shape1 a) (rows a).

(** What the module hands to numpy: a scalar, a flat sequence, or a 2-D
    array. *)
Inductive array_like :=
| Scalar (v : Q)
| Vector (v : list Q)
| Matrix (a : ndarray).

(** [np.atleast_2d]: a scalar becomes 1x1, a flat sequence one row. *)
Definition atleast_2d (x : array_like) : ndarray :=
  match x with
  | Scalar v => NdArray 1 1 [[v]]
  | Vector v => NdArray 1 (length v) [v]
  | Matrix a => a
  end.

(** [np.zeros((n, m))]. *)
Definition zeros (n m : nat) : ndarray :=
  NdArray n m (replicate n (replicate m 0%Q)).

(** Entry [(i, j)] of [v] seen through broadcasting: an axis of extent 1
    is repeated. *)
Definition broadcast_entry (v : ndarray) (i j : nat) : Q :=
  let r := default [] (rows v !! (if decide (shape0 v = 1) then 0 else i)) in
  default 0%Q (r !! (if decide (shape1 v = 1) then 0 else j)).

(** One row of [a[:, idx] = v]: position [j] of [idx] names the column
    that receives entry [j] of the value; assignments happen in the order
    of [idx], so a repeated column keeps the last one. *)
Fixpoint assign_cols (j : nat) (idx : list nat) (val : nat → Q)
    (row : list Q) : list Q :=
  match idx with
  | [] => row
  | c :: idx' => assign_cols (S j) idx' val (<[c := val j]> row)
  end.

(** [a[:, idx] = v]. The value must broadcast to [(shape0 a, len idx)]
    ([ValueError] otherwise) and every index must be a column of [a]
    ([IndexError] otherwise). *)
Definition setitem_columns (a : ndarray) (idx : list nat) (v : ndarray)
    : result ndarray :=
  if negb (bool_decide ((shape0 v = shape0 a ∨ shape0 v = 1)
                        ∧ (shape1 v = length idx ∨ shape1 v = 1)))
  then inl ValueError
  else if negb (bool_decide (Forall (λ c, c < shape1 a) idx))
  then inl IndexError
  else inr (NdArray (shape0 a) (shape1 a)
              (imap (λ i row, assign_cols 0 idx (broadcast_entry v i) row)
                    (rows a))).

(** [a[:, idx]]: the columns named by [idx], in that order. *)
Definition getitem_columns (a : ndarray) (idx : list nat) : result ndarray :=
  if negb (bool_decide (Forall (λ c, c < shape1 a) idx))
  then inl IndexError
  else inr (NdArray (shape0 a) (length idx)
              ((λ row, (λ c, default 0%Q (row !! c)) <$> idx) <$> rows a)).

(** Entry [(i, j)] of an array, when it exists. *)
Definition entry (a : ndarray) (i j : nat) : option Q :=
  rows a !! i ≫= λ r, r !! j.

(** A float64 scalar as comparisons see it: a number, one of the two
    infinities, or NaN. *)
Inductive float :=
| NaN
| NegInf
| Num (q : Q)
| PosInf.

Definition isnan (x : float) : bool :=
  match x with
  | NaN => true
  | _ => false
  end.

(** [x >= y]: false as soon as one side is NaN. *)
Definition greater_equal (x y : float) : bool :=
  match x, y with
  | NaN, _ | _, NaN => false
  | PosInf, _ => true
  | _, NegInf => true
  | Num a, Num b => Qle_bool b a
  | _, _ => false
  end.

(** [x <= y] and [x == y] as propositions; neither holds of NaN. *)
Definition less_equal (x y : float) : Prop := greater_equal y x = true.

Definition equal (x y : float) : Prop := less_equal x y ∧ less_equal y x.

(** [np.vstack(values).flatten()] on a list of scalars: the list itself;
    [np.vstack] refuses an empty list. *)
Definition vstack_flatten (values : list float) : result (list float) :=
  match values with
  | [] => inl ValueError
  | _ => inr values
  end.

(** The scan of [np.argmin] after a first entry that is not NaN: [best]
    is the least value seen so far and [best_i] its position. A later
    entry [v] replaces it when [not (v >= best)]: when it is strictly
    smaller, so that the first occurrence of the minimum is kept, or when
    it is NaN, which ends the scan. *)
Fixpoint argmin_scan (best : float) (best_i i : nat) (l : list float) : nat :=
  match l with
  | [] => best_i
  | v :: l' =>
      if greater_equal v best then argmin_scan best best_i (S i) l'
      else if isnan v then i
      else argmin_scan v i (S i) l'
  end.

(** [np.argmin]: a NaN in first position is the answer at once. *)
Definition argmin (l : list float) : result nat :=
  match l with
  | [] => inl ValueError
  | v :: l' => inr (if isnan v then 0 else argmin_scan v 0 1 l')
  end.

End np.

(** ** The design space, as far as the module consults it *)

Record space_variable := SpaceVariable
  { index_in_model : list nat;
    index_in_objective : list nat;
    objective_to_model : Q → result (list Q) }.

Record Design_space := DesignSpace
  { model_dimensionality : nat;
    config_space_expanded : list string;
    get_bounds : list (Q * Q);
    find_variable : string → result space_variable }.

(** A context is a Python dict from variable names to objective-space
    values; iteration follows insertion order, so it is kept as an
    association list. *)
Definition dict := list (string * Q).

Definition keys (d : dict) : list string := d.*1.

Fixpoint dict_get (d : dict) (k : string) : result Q :=
  match d with
  | [] => inl KeyError
  | (k', v) :: d' => if decide (k' = k) then inr v else dict_get d' k
  end.

(** ** class ContextManager *)

Module ContextManager.

Record t := Build
  { space : Design_space;
    all_index : list nat;
    all_index_obj : list nat;
    context_index : list nat;
    context_value : list Q;
    context_index_obj : list nat;
    nocontext_index_obj : list nat;
    noncontext_bounds : list (Q * Q);
    noncontext_index : list nat }.

(** The list object [noncontext_bounds] with new contents. *)
Definition with_noncontext_bounds (v : list (Q * Q)) (s : t) : t :=
  Build (space s) (all_index s) (all_index_obj s) (context_index s)
    (context_value s) (context_index_obj s) (nocontext_index_obj s)
    v (noncontext_index s).

(** The three accumulators of the loop over [context.keys()]. *)
Definition acc : Type := (list nat * list nat * list Q)%type.

(** Lines 118-122: one iteration per key, in order. *)
Fixpoint update_context (sp : Design_space) (context : dict)
    (ks : list string) (a : acc) : result acc :=
  match ks with
  | [] => inr a
  | context_variable :: ks' =>
      let '(ci, cio, cv) := a in
      (variable ← find_variable sp context_variable;
       value ← dict_get context context_variable;
       encoded ← objective_to_model variable value;
       update_context sp context ks'
         (ci ++ index_in_model variable,
          cio ++ index_in_objective variable,
          cv ++ encoded))
  end.

(** [[l[idx] for idx in idxs]]. *)
Fixpoint select_items {A} (l : list A) (idxs : list nat) : result (list A) :=
  match idxs with
  | [] => inr []
  | idx :: idxs' =>
      match l !! idx with
      | None => inl IndexError
      | Some b => (bs ← select_items l idxs'; inr (b :: bs))
      end
  end.

(** [ContextManager.__init__(self, space, context=None)]. *)
Definition __init__ (sp : Design_space) (context : option dict) : result t :=
  let all_index := seq 0 (model_dimensionality sp) in
  let all_index_obj := seq 0 (length (config_space_expanded sp)) in
  match context with
  | None =>
      inr (Build sp all_index all_index_obj [] [] [] all_index_obj
             (get_bounds sp) all_index)
  | Some context =>
      ('(context_index, context_index_obj, context_value) ←
         update_context sp context (keys context) ([], [], []);
       let noncontext_index :=
         filter (λ idx, idx ∉ context_index) all_index in
       noncontext_bounds ← select_items (get_bounds sp) noncontext_index;
       let nocontext_index_obj :=
         filter (λ idx, idx ∉ context_index_obj) all_index_obj in
       inr (Build sp all_index all_index_obj context_index context_value
              context_index_obj nocontext_index_obj noncontext_bounds
              noncontext_index))
  end.

(** [ContextManager._expand_vector(self, x)]. *)
Definition _expand_vector (self : t) (x : np.array_like) : result np.ndarray :=
  let x := np.atleast_2d x in
  let x_expanded := np.zeros (np.shape0 x) (model_dimensionality (space self)) in
  (x_expanded ← np.setitem_columns x_expanded (noncontext_index self) x;
   np.setitem_columns x_expanded (context_index self)
     (np.atleast_2d (np.Vector (context_value self)))).

End ContextManager.

(** ** class AcquisitionOptimizer *)

Definition max_objective_anchor_points_logic : string := "max_objective".
Definition thompson_sampling_anchor_points_logic : string := "thompson_sampling".
Definition sobol_design_type : string := "sobol".
Definition random_design_type : string := "random".

(** A point of the model space: one row of the anchor array. *)
Definition point : Type := list Q.

(** The callables handed to [optimize]. *)
Definition objective : Type := point → np.float.
Definition gradient : Type := point → list Q.
Definition objective_and_gradient : Type := point → np.float * list Q.

(** An instance attribute: absent until assigned. *)
Inductive attr (A : Type) :=
| Absent
| Attr (a : A).
Arguments Absent {A}.
Arguments Attr {A} a.

(** The kinds of object the module receives from outside and only passes
    on: optimizer back ends, surrogate models, duplicate managers. *)
Class Externals := MkExternals
  { Optimizer : Type;
    Model : Type;
    DuplicateManager : Type }.

Section interfaces.
Context `{Externals}.

(** A keyword-argument value. *)
Inductive pyval :=
| PyStr (s : string)
| PyModel (m : Model).

(** [v == s] for a string constant [s]. *)
Definition py_eq_str (v : pyval) (s : string) : bool :=
  match v with
  | PyStr s' => bool_decide (s' = s)
  | PyModel _ => false
  end.

(** The two generator classes of [anchor_points_generator], with their
    constructor arguments. *)
Inductive AnchorPointsGenerator :=
| ObjectiveAnchorPointsGenerator
    (space : Design_space) (design_type : string) (objective : option objective)
| ThompsonSamplingAnchorPointsGenerator
    (space : Design_space) (design_type : string) (model : pyval).

(** The two objects [optimize] passes by reference to
    [anchor_points_generator.get] and [apply_optimizer]:
    [self.context_manager] and the [duplicate_manager] argument ([None]
    when the caller gave none). A collaborator receives their state and
    hands back the state it leaves them in. *)
Record managers := Managers
  { context_manager_obj : ContextManager.t;
    duplicate_manager_obj : option DuplicateManager }.

(** The by-value arguments of one call
    [apply_optimizer(optimizer, x0, f=, df=, f_df=, ..., space=)]. *)
Record apply_optimizer_args := ApplyOptimizerArgs
  { arg_optimizer : Optimizer;
    arg_x0 : point;
    arg_f : option objective;
    arg_df : option gradient;
    arg_f_df : option objective_and_gradient;
    arg_space : Design_space }.

(** The functions imported from [.optimizer] and
    [.anchor_points_generator]. [choose_optimizer] is handed the list
    object [self.context_manager.noncontext_bounds] and, like the other
    two, hands back the state it leaves it in. *)
Class Collaborators := MkCollaborators
  { choose_optimizer :
      string → list (Q * Q) → result Optimizer * list (Q * Q);
    anchor_points_get :
      AnchorPointsGenerator → option point → managers →
      result (list point) * managers;
    apply_optimizer :
      apply_optimizer_args → managers → result (point * np.float) * managers }.

(** Modelled from the spec: [choose_optimizer] and [apply_optimizer]
    (module [.optimizer]) and the [get] of the two generators (module
    [.anchor_points_generator]) are not under src/. The specification
    gives them no way to write what [optimize] hands them: the duplicate
    manager "exposes is_duplicate(point) -> bool", is "queried with a
    full-space point" and sees "no mutation performed by the core"
    (sections 3 and 6); the context manager's fields are "computed once
    at Context Manager construction; immutable thereafter" (section 3);
    both are "read-only for the duration of one optimize() call"
    (section 5). A collaborator is therefore a function of its arguments
    and of the state of the objects it is handed, and yields only its
    result. *)
Record QueryingCollaborators := MkQueryingCollaborators
  { query_choose_optimizer : string → list (Q * Q) → result Optimizer;
    query_anchor_points_get :
      AnchorPointsGenerator → option point → managers → result (list point);
    query_apply_optimizer :
      apply_optimizer_args → managers → result (point * np.float) }.

(** Such collaborators behind the interface [optimize] calls: what they
    were handed comes back as it was. *)
Definition as_collaborators (q : QueryingCollaborators) : Collaborators :=
  MkCollaborators
    (λ name bounds, (query_choose_optimizer q name bounds, bounds))
    (λ g x_opt m, (query_anchor_points_get q g x_opt m, m))
    (λ c m, (query_apply_optimizer q c m, m)).

End interfaces.

Module AcquisitionOptimizer.
Section with_collaborators.
Context `{Collaborators}.

Record t := Build
  { space : Design_space;
    optimizer_name : string;
    kwargs : gmap string pyval;
    spec_win_cnt : Z;
    model : attr pyval;
    type_anchor_points_logic : pyval;
    context_manager : ContextManager.t;
    f : attr (option objective);
    df : attr (option gradient);
    f_df : attr (option objective_and_gradient);
    optimizer : attr Optimizer }.

(** [AcquisitionOptimizer.__init__(self, space, optimizer='lbfgs', **kwargs)]. *)
Definition __init__ (sp : Design_space) (optimizer : option string)
    (kwargs : gmap string pyval) : result t :=
  let optimizer_name := default "lbfgs" optimizer in
  let model :=
    match kwargs !! "model" with
    | Some m => Attr m
    | None => Absent
    end in
  let type_anchor_points_logic :=
    match kwargs !! "type_anchor_points_logic" with
    | Some l => l
    | None => PyStr max_objective_anchor_points_logic
    end in
  context_manager ← ContextManager.__init__ sp None;
  mret (Build sp optimizer_name kwargs 0 model type_anchor_points_logic
          context_manager Absent Absent Absent Absent).

(** *** Field assignments *)

Definition with_f (v : option objective) (s : t) : t :=
  Build (space s) (optimizer_name s) (kwargs s) (spec_win_cnt s) (model s)
    (type_anchor_points_logic s) (context_manager s)
    (Attr v) (df s) (f_df s) (optimizer s).

Definition with_df (v : option gradient) (s : t) : t :=
  Build (space s) (optimizer_name s) (kwargs s) (spec_win_cnt s) (model s)
    (type_anchor_points_logic s) (context_manager s)
    (f s) (Attr v) (f_df s) (optimizer s).

Definition with_f_df (v : option objective_and_gradient) (s : t) : t :=
  Build (space s) (optimizer_name s) (kwargs s) (spec_win_cnt s) (model s)
    (type_anchor_points_logic s) (context_manager s)
    (f s) (df s) (Attr v) (optimizer s).

Definition with_optimizer (v : Optimizer) (s : t) : t :=
  Build (space s) (optimizer_name s) (kwargs s) (spec_win_cnt s) (model s)
    (type_anchor_points_logic s) (context_manager s)
    (f s) (df s) (f_df s) (Attr v).

Definition with_spec_win_cnt (v : Z) (s : t) : t :=
  Build (space s) (optimizer_name s) (kwargs s) v (model s)
    (type_anchor_points_logic s) (context_manager s)
    (f s) (df s) (f_df s) (optimizer s).

Definition with_context_manager (v : ContextManager.t) (s : t) : t :=
  Build (space s) (optimizer_name s) (kwargs s) (spec_win_cnt s) (model s)
    (type_anchor_points_logic s) v
    (f s) (df s) (f_df s) (optimizer s).

(** *** The state a call runs in *)

(** [this] is the object [self]; [duplicate_manager] is the object bound
    to the parameter of that name; [stdout] collects printed lines. *)
Record heap := Heap
  { this : t;
    duplicate_manager : option DuplicateManager;
    stdout : list string }.

(** A statement: runs in a heap, leaves a heap, returns or raises. *)
Definition M (A : Type) : Type := heap → result A * heap.

Global Instance M_ret : MRet M := λ A a h, (inr a, h).

Global Instance M_bind : MBind M := λ A B k c h,
  match c h with
  | (inl e, h') => (inl e, h')
  | (inr a, h') => k a h'
  end.

Definition raise {A} (e : exn) : M A := λ h, (inl e, h).

Definition lift {A} (r : result A) : M A := λ h, (r, h).

Definition self : M t := λ h, (inr (this h), h).

Definition assign (upd : t → t) : M unit :=
  λ h, (inr (), Heap (upd (this h)) (duplicate_manager h) (stdout h)).

Definition getattr {A} (a : attr A) : M A :=
  match a with
  | Absent => raise AttributeError
  | Attr v => mret v
  end.

Definition print (line : string) : M unit :=
  λ h, (inr (), Heap (this h) (duplicate_manager h) (stdout h ++ [line])).

(** A call that receives [self.context_manager] and [duplicate_manager]
    by reference: whatever state the callee leaves them in is what the
    heap holds afterwards. *)
Definition call {A} (callee : managers → result A * managers) : M A :=
  λ h,
    let '(r, m) := callee (Managers (context_manager (this h)) (duplicate_manager h)) in
    (r, Heap (with_context_manager (context_manager_obj m) (this h))
             (duplicate_manager_obj m) (stdout h)).

(** A call that receives the list [self.context_manager.noncontext_bounds]
    by reference. *)
Definition call_bounds {A}
    (callee : list (Q * Q) → result A * list (Q * Q)) : M A :=
  λ h,
    let '(r, b) :=
      callee (ContextManager.noncontext_bounds (context_manager (this h))) in
    (r, Heap (with_context_manager
                (ContextManager.with_noncontext_bounds b (context_manager (this h)))
                (this h))
             (duplicate_manager h) (stdout h)).

(** The arguments of the call on lines 77-78 for anchor [a]. *)
Definition apply_optimizer_call (s : t) (optimizer : Optimizer) (a : point)
    (f : option objective) (f_df : option objective_and_gradient)
    : apply_optimizer_args :=
  {| arg_optimizer := optimizer;
     arg_x0 := a;
     arg_f := f;
     arg_df := None;
     arg_f_df := f_df;
     arg_space := space s |}.

(** [optimized_points[min_idx]]. *)
Definition getitem {A} (l : list A) (i : nat) : result A :=
  match l !! i with
  | Some a => inr a
  | None => inl IndexError
  end.

(** [AcquisitionOptimizer.optimize(self, f=None, df=None, f_df=None,
    duplicate_manager=None, x_opt=None)]; [self] and [duplicate_manager]
    are the objects of the heap. *)
Definition optimize (f : option objective) (df : option gradient)
    (f_df : option objective_and_gradient) (x_opt : option point)
    : M (point * np.float) :=
  assign (with_f f);;
  assign (with_df df);;
  assign (with_f_df f_df);;
  s ← self;
  opt ← call_bounds (choose_optimizer (optimizer_name s));
  assign (with_optimizer opt);;
  s ← self;
  (* the local [anchor_points_generator] is bound by neither branch when
     the logic is neither of the two constants *)
  anchor_points_generator ←
    (if py_eq_str (type_anchor_points_logic s) max_objective_anchor_points_logic
     then mret (Some (ObjectiveAnchorPointsGenerator (space s) random_design_type f))
     else if py_eq_str (type_anchor_points_logic s) thompson_sampling_anchor_points_logic
     then m ← getattr (model s);
          mret (Some (ThompsonSamplingAnchorPointsGenerator (space s) sobol_design_type m))
     else mret None);
  let np_prec := 5%nat in
  anchor_points ←
    match anchor_points_generator with
    | None => raise UnboundLocalError
    | Some g => call (anchor_points_get g x_opt)
    end;
  optimized_points ←
    mapM (λ a, s ← self;
               opt ← getattr (optimizer s);
               call (apply_optimizer (apply_optimizer_call s opt a f f_df)))
         anchor_points;
  values ← lift (np.vstack_flatten (snd <$> optimized_points));
  min_idx ← lift (np.argmin values);
  let num_anchors := 5%nat in
  (if bool_decide (num_anchors ≤ min_idx)%nat
   then s ← self;
        assign (with_spec_win_cnt (spec_win_cnt s + 1));;
        s ← self;
        print ("specified anchors win " +:+ pretty (spec_win_cnt s))
   else mret ());;
  '(x_min, fx_min) ← lift (getitem optimized_points min_idx);
  mret (x_min, fx_min).

(** *** The three phases of [optimize], for stating its properties *)

(** Lines 55-71: up to and including the anchor points. *)
Definition anchor_points_phase (f : option objective) (df : option gradient)
    (f_df : option objective_and_gradient) (x_opt : option point)
    : M (list point) :=
  assign (with_f f);;
  assign (with_df df);;
  assign (with_f_df f_df);;
  s ← self;
  opt ← call_bounds (choose_optimizer (optimizer_name s));
  assign (with_optimizer opt);;
  s ← self;
  anchor_points_generator ←
    (if py_eq_str (type_anchor_points_logic s) max_objective_anchor_points_logic
     then mret (Some (ObjectiveAnchorPointsGenerator (space s) random_design_type f))
     else if py_eq_str (type_anchor_points_logic s) thompson_sampling_anchor_points_logic
     then m ← getattr (model s);
          mret (Some (ThompsonSamplingAnchorPointsGenerator (space s) sobol_design_type m))
     else mret None);
  match anchor_points_generator with
  | None => raise UnboundLocalError
  | Some g => call (anchor_points_get g x_opt)
  end.

(** Lines 76-78: one optimizer run per anchor, in the order of the
    anchors. *)
Definition optimized_points_phase (f : option objective)
    (f_df : option objective_and_gradient) (anchor_points : list point)
    : M (list (point * np.float)) :=
  mapM (λ a, s ← self;
             opt ← getattr (optimizer s);
             call (apply_optimizer (apply_optimizer_call s opt a f f_df)))
       anchor_points.

(** Lines 84-94: the selection of the minimum. *)
Definition selection_phase (optimized_points : list (point * np.float))
    : M (point * np.float) :=
  values ← lift (np.vstack_flatten (snd <$> optimized_points));
  min_idx ← lift (np.argmin values);
  let num_anchors := 5%nat in
  (if bool_decide (num_anchors ≤ min_idx)%nat
   then s ← self;
        assign (with_spec_win_cnt (spec_win_cnt s + 1));;
        s ← self;
        print ("specified anchors win " +:+ pretty (spec_win_cnt s))
   else mret ());;
  '(x_min, fx_min) ← lift (getitem optimized_points min_idx);
  mret (x_min, fx_min).

(** The heap after the selection phase picked index [i]. *)
Definition after_selection (i : nat) (h : heap) : heap :=
  if bool_decide (5 ≤ i)
  then Heap (with_spec_win_cnt (spec_win_cnt (this h) + 1) (this h))
            (duplicate_manager h)
            (stdout h ++ ["specified anchors win " +:+ pretty (spec_win_cnt (this h) + 1)%Z])
  else h.

(** What neither a collaborator nor the first two phases assign. *)
Definition bookkeeping (h : heap) :=
  (space (this h), optimizer_name (this h), kwargs (this h),
   spec_win_cnt (this h), model (this h),
   type_anchor_points_logic (this h), stdout h).

(** The collaborators leave the two managers as they found them. *)
Definition read_only_collaborators : Prop :=
  (∀ name b, (choose_optimizer name b).2 = b)
  ∧ (∀ g x_opt m, (anchor_points_get g x_opt m).2 = m)
  ∧ (∀ c m, (apply_optimizer c m).2 = m).

(** Statement [c] leaves the observation [obs] of the heap as it was,
    whether it returns or raises. *)
Definition keeps {X A} (obs : heap → X) (c : M A) : Prop :=
  ∀ h r h', c h = (r, h') → obs h' = obs h.

(** Statement [c] maintains the invariant [inv] of the heap, whether it
    returns or raises. *)
Definition maintains {A} (inv : heap → Prop) (c : M A) : Prop :=
  ∀ h r h', inv h → c h = (r, h') → inv h'.

(** *** Reading [df] *)

Definition clear_df (s : t) : t :=
  Build (space s) (optimizer_name s) (kwargs s) (spec_win_cnt s) (model s)
    (type_anchor_points_logic s) (context_manager s)
    (f s) Absent (f_df s) (optimizer s).

Definition forget_df (h : heap) : heap :=
  Heap (clear_df (this h)) (duplicate_manager h) (stdout h).

(** Statement [c] neither reads nor assigns [self.df]: it commutes with
    forgetting the attribute. *)
Definition df_blind {A} (c : M A) : Prop :=
  ∀ h, c (forget_df h) = ((c h).1, forget_df (c h).2).

(** Following the specification's words for lines 76-78: every run
    receives the supplied [df]. *)
Definition optimized_points_phase_spec (f : option objective)
    (df : option gradient) (f_df : option objective_and_gradient)
    (anchor_points : list point) : M (list (point * np.float)) :=
  mapM (λ a, s ← self;
             opt ← getattr (optimizer s);
             call (apply_optimizer
                     {| arg_optimizer := opt;
                        arg_x0 := a;
                        arg_f := f;
                        arg_df := df;
                        arg_f_df := f_df;
                        arg_space := space s |}))
       anchor_points.

(** The two managers as the heap holds them. *)
Definition managers_of (h : heap) : managers :=
  Managers (context_manager (this h)) (duplicate_manager h).

(** The collaborators maintain the property [P] of the two managers:
    each leaves them in a state with [P] when it received them in one. *)
Definition collaborators_maintain (P : managers → Prop) : Prop :=
  (∀ name cm dm, P (Managers cm dm) →
     P (Managers
          (ContextManager.with_noncontext_bounds
             (choose_optimizer name (ContextManager.noncontext_bounds cm)).2 cm)
          dm))
  ∧ (∀ g x_opt m, P m → P (anchor_points_get g x_opt m).2)
  ∧ (∀ c m, P m → P (apply_optimizer c m).2).

End with_collaborators.
End AcquisitionOptimizer.

(** ** What the specification's data model requires of a design space *)

(** The bounds array has one entry per model dimension. *)
Definition bounds_cover (sp : Design_space) : Prop :=
  length (get_bounds sp) = model_dimensionality sp.

(** The model indices of a variable are model dimensions. *)
Definition indices_in_range (sp : Design_space) : Prop :=
  ∀ name v, find_variable sp name = inr v →
    Forall (λ c, c < model_dimensionality sp) (index_in_model v).

(** A model dimension belongs to one variable, once. *)
Definition indices_exclusive (sp : Design_space) : Prop :=
  ∀ n1 n2 v1 v2, find_variable sp n1 = inr v1 → find_variable sp n2 = inr v2 →
    NoDup (index_in_model v1)
    ∧ (n1 ≠ n2 → ∀ c, c ∈ index_in_model v1 → c ∉ index_in_model v2).

(** The model encoding of a value has one entry per model index. *)
Definition encoding_aligned (sp : Design_space) : Prop :=
  ∀ name v q l, find_variable sp name = inr v →
    objective_to_model v q = inr l →
    length l = length (index_in_model v).

(** The space encodes the value the context gives to each of its
    variables: line 122 does not raise. *)
Definition context_encodable (sp : Design_space) (context : dict) : Prop :=
  ∀ k v q, find_variable sp k = inr v → dict_get context k = inr q →
    ∃ l, objective_to_model v q = inr l.

(** Key [k] of the context passes lines 119-122: the space knows the
    variable and encodes the value given to it. *)
Definition key_accepted (sp : Design_space) (context : dict) (k : string)
    : Prop :=
  ∃ v q l, find_variable sp k = inr v ∧ dict_get context k = inr q
           ∧ objective_to_model v q = inr l.

(** A Python dict holds a key once. *)
Definition distinct_keys (context : option dict) : Prop :=
  match context with
  | None => True
  | Some d => NoDup (keys d)
  end.

(** The state of a context manager on which [_expand_vector] is defined. *)
Record expandable (cm : ContextManager.t) : Prop := Expandable
  { nci_nodup : NoDup (ContextManager.noncontext_index cm);
    nci_range :
      Forall (λ c, c < model_dimensionality (ContextManager.space cm))
             (ContextManager.noncontext_index cm);
    ci_range :
      Forall (λ c, c < model_dimensionality (ContextManager.space cm))
             (ContextManager.context_index cm);
    ci_apart : ∀ c, c ∈ ContextManager.context_index cm →
                    c ∉ ContextManager.noncontext_index cm;
    cv_aligned : length (ContextManager.context_value cm)
                 = length (ContextManager.context_index cm) }.

(** A small space: variable "a" owns columns 0 and 1, "b" owns column 2. *)
Definition demo_space : Design_space :=
  DesignSpace 3 ["a"; "b"] [(0, 1); (0, 1); (0, 5)]%Q
    (λ name,
       if decide (name = "a") then inr (SpaceVariable [0; 1] [0] (λ q, inr [q; (1 - q)%Q]))
       else if decide (name = "b") then inr (SpaceVariable [2] [1] (λ q, inr [q]))
       else inl (Exn "InvalidVariableNameError")).

(** ** A toy instance of the collaborators

    Optimizer back ends are known by name, a duplicate manager is the list
    of points already evaluated, and an optimizer run takes one gradient
    step from the anchor when it is given a gradient and stays at the
    anchor otherwise. The anchor generator proposes five points of the
    box, drops those the duplicate manager knows, and appends [x_opt]. *)

Global Instance Q_eq_dec : EqDecision Q.
Proof. solve_decision. Defined.

Global Instance toy_externals : Externals :=
  MkExternals string unit (list point).

Definition toy_choose_optimizer (name : string) (bounds : list (Q * Q))
    : result string * list (Q * Q) :=
  if bool_decide (name ∈ ["lbfgs"; "DIRECT"; "CMA"]) then (inr name, bounds)
  else (inl (Exn "InvalidConfigError"), bounds).

Definition toy_space_of (g : AnchorPointsGenerator) : Design_space :=
  match g with
  | ObjectiveAnchorPointsGenerator sp _ _ => sp
  | ThompsonSamplingAnchorPointsGenerator sp _ _ => sp
  end.

(** The candidates: the points a fraction [t] of the way along every
    axis of the box, for five values of [t]. *)
Definition toy_candidates (bounds : list (Q * Q)) : list point :=
  (λ t, (λ b, Qred (b.1 + t * (b.2 - b.1))) <$> bounds)
    <$> [0; 1; 1#4; 3#4; 1#8]%Q.

Definition toy_get (g : AnchorPointsGenerator) (x_opt : option point)
    (m : managers) : result (list point) * managers :=
  let known := default [] (duplicate_manager_obj m) in
  let fresh :=
    filter (λ a, a ∉ known) (toy_candidates (get_bounds (toy_space_of g))) in
  (inr (fresh ++ match x_opt with Some x => [x] | None => [] end), m).

Definition toy_apply (c : apply_optimizer_args) (m : managers)
    : result (point * np.float) * managers :=
  let x :=
    match arg_df c with
    | Some g => zip_with Qminus (arg_x0 c) (g (arg_x0 c))
    | None => arg_x0 c
    end in
  match arg_f c with
  | Some f => (inr (x, f x), m)
  | None => (inl (Exn "TypeError"), m)
  end.

Global Instance toy_collaborators : Collaborators :=
  MkCollaborators toy_choose_optimizer toy_get toy_apply.

(** [f(x) = sum of (x_i - 1/2)^2], and half its gradient. *)
Definition toy_f : objective :=
  λ x, np.Num (foldr Qplus 0%Q ((λ q, (q - (1#2)) * (q - (1#2)))%Q <$> x)).

Definition toy_df : gradient :=
  λ x, (λ q, q - (1#2))%Q <$> x.

Definition unit_square : Design_space :=
  DesignSpace 2 ["x"; "y"] [(0, 1); (0, 1)]%Q
    (λ name,
       if decide (name = "x") then inr (SpaceVariable [0] [0] (λ q, inr [q]))
       else if decide (name = "y") then inr (SpaceVariable [1] [1] (λ q, inr [q]))
       else inl (Exn "InvalidVariableNameError")).

(** The value of a computation that returns. *)
Definition returned {A : Type} (r : result A)
    : match r return Type with inr _ => A | inl _ => exn end :=
  match r with
  | inr a => a
  | inl e => e
  end.

(** A fresh optimizer on the unit square, and the heap of a call on it
    with a given duplicate manager. *)
Definition toy_self : AcquisitionOptimizer.t :=
  returned (AcquisitionOptimizer.__init__ unit_square None ∅).

Definition toy_start (known : option (list point)) : AcquisitionOptimizer.heap :=
  AcquisitionOptimizer.Heap toy_self known [].

(** The manager of [demo_space] with "b" fixed to 3. *)
Definition demo_manager : ContextManager.t :=
  returned (ContextManager.__init__ demo_space (Some [("b", 3%Q)])).

(** The toy runs the examples below look at. *)
Definition toy_anchors : list point := toy_candidates (get_bounds unit_square).

Definition half_half : point := [1#2; 1#2]%Q.

(** The heap after the anchor phase of a call with [f = toy_f], the given
    [df] and [x_opt], and no duplicate manager. *)
Definition toy_after_anchors (df : option gradient) (x_opt : option point)
    : AcquisitionOptimizer.heap :=
  (AcquisitionOptimizer.anchor_points_phase (Some toy_f) df None x_opt
     (toy_start None)).2.

(** The optimized pair of an anchor when the run gets no gradient. *)
Definition toy_pair (a : point) : point * np.float := (a, toy_f a).

(** [toy_f] with an undefined value (NaN) at the corner [(1, 1)]. *)
Definition nan_f : objective :=
  λ x, if decide (x = [1; 1]%Q) then np.NaN else toy_f x.

(** A variant of the toy optimizer run that writes the duplicate
    manager: it records the point it returns. *)
Definition recording_apply (c : apply_optimizer_args) (m : managers)
    : result (point * np.float) * managers :=
  match (toy_apply c m).1 with
  | inr (x, fx) =>
      (inr (x, fx),
       Managers (context_manager_obj m)
         (Some (default [] (duplicate_manager_obj m) ++ [x])))
  | inl e => (inl e, m)
  end.

Definition recording_collaborators : Collaborators :=
  MkCollaborators toy_choose_optimizer toy_get recording_apply.

(** The context manager is that of [toy_self] and the duplicate manager
    knows [half_half]. *)
Definition knows_half_half (m : managers) : Prop :=
  context_manager_obj m = AcquisitionOptimizer.context_manager toy_self
  ∧ half_half ∈ default [] (duplicate_manager_obj m).

(** The toy collaborators as functions that only query the managers. *)
Definition toy_querying : QueryingCollaborators :=
  MkQueryingCollaborators
    (λ name bounds, (toy_choose_optimizer name bounds).1)
    (λ g x_opt m, (toy_get g x_opt m).1)
    (λ c m, (toy_apply c m).1).

Definition unknown_logic_kwargs : gmap string pyval :=
  {["type_anchor_points_logic" := PyStr "foo"]}.

(** ** Further inputs for the examples *)

(** The objective indices of a variable are positions of
    [config_space_expanded]. *)
Definition objective_indices_in_range (sp : Design_space) : Prop :=
  ∀ name v, find_variable sp name = inr v →
    Forall (λ c, c < length (config_space_expanded sp)) (index_in_objective v).

(** [demo_space] with the last bound missing. *)
Definition short_space : Design_space :=
  DesignSpace 3 ["a"; "b"] [(0, 1); (0, 1)]%Q (find_variable demo_space).

(** Keyword arguments asking for Thompson sampling without a model. *)
Definition thompson_kwargs : gmap string pyval :=
  {["type_anchor_points_logic" := PyStr "thompson_sampling"]}.

(** A fresh optimizer on the unit square with a back end the toy
    [choose_optimizer] does not know. *)
Definition bogus_start : AcquisitionOptimizer.heap :=
  AcquisitionOptimizer.Heap
    (returned (AcquisitionOptimizer.__init__ unit_square (Some "bogus") ∅))
    None [].

(** A context fixing both variables of [demo_space], "b" first. *)
Definition two_key_context : dict := [("b", 3%Q); ("a", 1#2)].

Definition two_key_manager : ContextManager.t :=
  returned (ContextManager.__init__ demo_space (Some two_key_context)).

(** [demo_space] with "a" a variable that encodes the values 0 and 1
    only and refuses any other with an [IndexError]. *)
Definition picky_space : Design_space :=
  DesignSpace 3 ["a"; "b"] [(0, 1); (0, 1); (0, 5)]%Q
    (λ name,
       if decide (name = "a")
       then inr (SpaceVariable [0; 1] [0]
                   (λ q, if bool_decide (q ∈ [0; 1]%Q)
                         then inr [q; (1 - q)%Q]
                         else inl IndexError))
       else find_variable demo_space name).

(** A space whose variable "a" encodes a value in three entries but owns
    two model indices. *)
Definition misaligned_space : Design_space :=
  DesignSpace 3 ["a"] [(0, 1); (0, 1); (0, 5)]%Q
    (λ name,
       if decide (name = "a")
       then inr (SpaceVariable [0; 1] [0] (λ q, inr [q; q; q]))
       else inl (Exn "InvalidVariableNameError")).

Definition misaligned_manager : ContextManager.t :=
  returned (ContextManager.__init__ misaligned_space (Some [("a", 1%Q)])).

(** A space whose variable "a" claims model index 5 of 2 dimensions. *)
Definition stray_space : Design_space :=
  DesignSpace 2 ["a"] [(0, 1); (0, 1)]%Q
    (λ name,
       if decide (name = "a") then inr (SpaceVariable [5] [0] (λ q, inr [q]))
       else inl (Exn "InvalidVariableNameError")).

Definition stray_manager : ContextManager.t :=
  returned (ContextManager.__init__ stray_space (Some [("a", 1%Q)])).

(** A fresh optimizer on the unit square set up for Thompson sampling
    with a model. *)
Definition thompson_start : AcquisitionOptimizer.heap :=
  AcquisitionOptimizer.Heap
    (returned (AcquisitionOptimizer.__init__ unit_square None
                 (<["model" := PyModel ()]> thompson_kwargs)))
    None [].

(** * Supporting facts *)

(** ** Facts about the numpy fragment *)

Section numpy_facts.
Import np.

Lemma assign_cols_length idx : ∀ j val row,
  length (assign_cols j idx val row) = length row.
Proof.
  induction idx as [|c idx IH]; intros j val row; simpl; [done|].
  by rewrite IH, length_insert.
Qed.

Lemma assign_cols_untouched idx : ∀ j val row c,
  c ∉ idx → assign_cols j idx val row !! c = row !! c.
Proof.
  induction idx as [|c' idx IH]; intros j val row c Hc; simpl; [done|].
  apply not_elem_of_cons in Hc as [Hne Hc].
  rewrite IH by done. by apply list_lookup_insert_ne.
Qed.

Lemma assign_cols_written idx : ∀ j val row k c,
  NoDup idx → idx !! k = Some c → c < length row →
  assign_cols j idx val row !! c = Some (val (j + k)).
Proof.
  induction idx as [|c' idx IH]; intros j val row k c Hnd Hk Hc; [done|].
  apply NoDup_cons in Hnd as [Hfresh Hnd].
  destruct k as [|k]; simpl in *.
  - injection Hk as ->.
    rewrite assign_cols_untouched by done.
    rewrite Nat.add_0_r. by apply list_lookup_insert_eq.
  - rewrite (IH (S j) val _ k c) by (by rewrite ?length_insert).
    do 2 f_equal. lia.
Qed.

Lemma entry_Some a i j :
  well_shaped a → i < shape0 a → j < shape1 a → is_Some (entry a i j).
Proof.
  intros [Hlen Hrows] Hi Hj. unfold entry.
  destruct (lookup_lt_is_Some_2 (rows a) i) as [r Hr]; [lia|].
  rewrite Hr; simpl.
  apply lookup_lt_is_Some_2.
  rewrite Forall_lookup in Hrows. by rewrite (Hrows _ _ Hr).
Qed.

(** Inside the array, broadcasting reads the entry itself. *)
Lemma broadcast_entry_exact v i j :
  well_shaped v → i < shape0 v → j < shape1 v →
  entry v i j = Some (broadcast_entry v i j).
Proof.
  intros Hv Hi Hj.
  destruct (entry_Some v i j Hv Hi Hj) as [q Hq]. rewrite Hq. f_equal.
  unfold broadcast_entry, entry in *.
  replace (if decide (shape0 v = 1) then 0 else i) with i
    by (case_decide; lia).
  replace (if decide (shape1 v = 1) then 0 else j) with j
    by (case_decide; lia).
  destruct (rows v !! i) as [r|]; simpl in *; [|done]. by rewrite Hq.
Qed.

(** A flat value is repeated down the rows. *)
Lemma broadcast_entry_vector l i j :
  j < length l → l !! j = Some (broadcast_entry (atleast_2d (Vector l)) i j).
Proof.
  intros Hj. unfold broadcast_entry; simpl.
  replace (if decide (length l = 1) then 0 else j) with j
    by (case_decide; lia).
  destruct (lookup_lt_is_Some_2 l j Hj) as [q Hq]. by rewrite Hq.
Qed.

Lemma well_shaped_zeros n m : well_shaped (zeros n m).
Proof.
  split; simpl; [by rewrite length_replicate|].
  apply Forall_replicate. by rewrite length_replicate.
Qed.

Lemma well_shaped_atleast_2d_vector l : well_shaped (atleast_2d (Vector l)).
Proof. split; simpl; [done|]. by repeat constructor. Qed.

(** Two arrays of one shape with the same entries are the same array. *)
Lemma ndarray_ext a b :
  well_shaped a → well_shaped b →
  shape0 a = shape0 b → shape1 a = shape1 b →
  (∀ i j, i < shape0 a → j < shape1 a → entry a i j = entry b i j) →
  a = b.
Proof.
  destruct a as [n m ra], b as [n' m' rb]; simpl.
  intros [Hla Hra] [Hlb Hrb] <- <- Hent; simpl in *. f_equal.
  apply list_eq_same_length with n; [done..|].
  intros i r r' Hi Hr Hr'.
  rewrite Forall_lookup in Hra. rewrite Forall_lookup in Hrb.
  apply list_eq_same_length with m; eauto.
  intros j q q' Hj Hq Hq'.
  specialize (Hent i j Hi Hj). unfold entry in Hent; simpl in Hent.
  rewrite Hr, Hr' in Hent; simpl in Hent. congruence.
Qed.

(** What [a[:, idx] = v] yields when the value broadcasts and the
    indices are columns of [a]. *)
Lemma setitem_columns_spec a idx v :
  well_shaped a →
  (shape0 v = shape0 a ∨ shape0 v = 1) →
  (shape1 v = length idx ∨ shape1 v = 1) →
  Forall (λ c, c < shape1 a) idx →
  ∃ y, setitem_columns a idx v = inr y
    ∧ shape0 y = shape0 a ∧ shape1 y = shape1 a ∧ well_shaped y
    ∧ (∀ i c, c ∉ idx → entry y i c = entry a i c)
    ∧ (NoDup idx → ∀ i k c, i < shape0 a → idx !! k = Some c →
         entry y i c = Some (broadcast_entry v i k)).
Proof.
  intros [Hlen Hrows] Hb0 Hb1 Hidx.
  eexists. split.
  { unfold setitem_columns.
    rewrite (bool_decide_eq_true_2 _ (conj Hb0 Hb1)); simpl.
    by rewrite (bool_decide_eq_true_2 _ Hidx). }
  simpl. split; [done|]. split; [done|]. split; [|split].
  - split; simpl; [by rewrite length_imap|].
    apply Forall_lookup. intros i r Hr.
    rewrite list_lookup_imap in Hr.
    destruct (rows a !! i) as [r0|] eqn:Hr0; simplify_eq/=.
    rewrite assign_cols_length.
    rewrite Forall_lookup in Hrows. eauto.
  - intros i c Hc. unfold entry; simpl.
    rewrite list_lookup_imap.
    destruct (rows a !! i) as [r0|]; simpl; [|done].
    by apply assign_cols_untouched.
  - intros Hnd i k c Hi Hk. unfold entry; simpl.
    rewrite list_lookup_imap.
    destruct (lookup_lt_is_Some_2 (rows a) i) as [r0 Hr0]; [lia|].
    rewrite Hr0; simpl.
    rewrite Forall_lookup in Hrows. rewrite Forall_lookup in Hidx.
    apply (assign_cols_written idx 0 _ r0 k c Hnd Hk).
    rewrite (Hrows _ _ Hr0). eauto.
Qed.

(** What [a[:, idx]] yields when the indices are columns of [a]. *)
Lemma getitem_columns_spec a idx :
  well_shaped a → Forall (λ c, c < shape1 a) idx →
  ∃ z, getitem_columns a idx = inr z
    ∧ shape0 z = shape0 a ∧ shape1 z = length idx ∧ well_shaped z
    ∧ (∀ i k c, i < shape0 a → idx !! k = Some c →
         entry z i k = entry a i c).
Proof.
  intros [Hlen Hrows] Hidx. eexists. split.
  { unfold getitem_columns. by rewrite (bool_decide_eq_true_2 _ Hidx). }
  simpl. split; [done|]. split; [done|]. split.
  - split; simpl; [by rewrite length_fmap|].
    apply Forall_fmap, Forall_true. intros r; simpl. by rewrite length_fmap.
  - intros i k c Hi Hk. unfold entry; simpl.
    rewrite list_lookup_fmap.
    destruct (lookup_lt_is_Some_2 (rows a) i) as [r Hr]; [lia|].
    rewrite Hr; simpl. rewrite list_lookup_fmap, Hk; simpl.
    rewrite Forall_lookup in Hrows. rewrite Forall_lookup in Hidx.
    destruct (lookup_lt_is_Some_2 r c) as [q ->]; [|done].
    rewrite (Hrows _ _ Hr). eauto.
Qed.

Lemma greater_equal_not_nan x y :
  greater_equal x y = true → isnan x = false ∧ isnan y = false.
Proof. by destruct x, y. Qed.

Lemma greater_equal_refl x : isnan x = false → greater_equal x x = true.
Proof.
  destruct x; simpl; try done. intros _. apply Qle_bool_iff, Qle_refl.
Qed.

Lemma greater_equal_total x y :
  isnan x = false → isnan y = false →
  greater_equal x y = false → greater_equal y x = true.
Proof.
  destruct x as [| |a|], y as [| |b|]; simpl; try done.
  intros _ _ Hab. apply Qle_bool_iff.
  apply not_true_iff_false in Hab. rewrite Qle_bool_iff in Hab.
  apply Qlt_le_weak. by apply Qnot_le_lt.
Qed.

Lemma greater_equal_trans x y z :
  greater_equal x y = true → greater_equal y z = true →
  greater_equal x z = true.
Proof.
  destruct x as [| |a|], y as [| |b|], z as [| |c|]; simpl; try done.
  rewrite !Qle_bool_iff. intros Hba Hcb. by apply Qle_trans with b.
Qed.

(** The loop invariant of the scan: nothing seen is NaN, [best] sits at
    [best_i] in the part already seen, nothing seen is smaller, and
    nothing before [best_i] is as small. The scan ends on the first NaN
    if there is one, and on the first position of the least value
    otherwise. *)
Lemma argmin_scan_spec rest : ∀ seen best best_i,
  seen !! best_i = Some best →
  Forall (λ q, isnan q = false) seen →
  (∀ j q, seen !! j = Some q → less_equal best q) →
  (∀ j q, seen !! j = Some q → equal q best → best_i ≤ j) →
  ∃ m, (seen ++ rest) !! argmin_scan best best_i (length seen) rest = Some m
    ∧ (isnan m = true →
         ∀ j q, (seen ++ rest) !! j = Some q → isnan q = true →
           argmin_scan best best_i (length seen) rest ≤ j)
    ∧ (isnan m = false →
         Forall (λ q, isnan q = false) (seen ++ rest)
         ∧ (∀ j q, (seen ++ rest) !! j = Some q → less_equal m q)
         ∧ (∀ j q, (seen ++ rest) !! j = Some q → equal q m →
              argmin_scan best best_i (length seen) rest ≤ j)).
Proof.
  induction rest as [|v rest IH];
    intros seen best best_i Hbest Hnan Hmin Hfirst; simpl.
  { rewrite app_nil_r. exists best. split; [done|]. split; [|done].
    intros Hb. rewrite Forall_lookup in Hnan.
    by rewrite (Hnan _ _ Hbest) in Hb. }
  pose proof (lookup_lt_Some _ _ _ Hbest) as Hlt.
  assert (isnan best = false) as Hbn.
  { rewrite Forall_lookup in Hnan. eauto. }
  destruct (greater_equal v best) eqn:Hv; [|destruct (isnan v) eqn:Hvn].
  - destruct (greater_equal_not_nan _ _ Hv) as [Hvn _].
    replace (S (length seen)) with (length (seen ++ [v]))
      by (rewrite length_app; simpl; lia).
    rewrite (cons_middle v seen rest), app_assoc. apply IH.
    + by apply lookup_app_l_Some.
    + apply Forall_app. split; [done|]. by apply Forall_singleton.
    + intros j q [Hq|[_ Hq]]%lookup_app_Some; [eauto|].
      by apply list_lookup_singleton_Some in Hq as [_ <-].
    + intros j q [Hq|[Hj _]]%lookup_app_Some Heq; [eauto|lia].
  - exists v. split; [by rewrite lookup_app_r, Nat.sub_diag|].
    split; [|by rewrite Hvn].
    intros _ j q Hq Hqn.
    destruct (decide (j < length seen)) as [Hj|Hj]; [|lia].
    rewrite lookup_app_l in Hq by done.
    rewrite Forall_lookup in Hnan. by rewrite (Hnan _ _ Hq) in Hqn.
  - pose proof (greater_equal_total _ _ Hvn Hbn Hv) as Hbv.
    replace (S (length seen)) with (length (seen ++ [v]))
      by (rewrite length_app; simpl; lia).
    rewrite (cons_middle v seen rest), app_assoc. apply IH.
    + by rewrite lookup_app_r, Nat.sub_diag.
    + apply Forall_app. split; [done|]. by apply Forall_singleton.
    + intros j q [Hq|[_ Hq]]%lookup_app_Some.
      * unfold less_equal. eapply greater_equal_trans; [|done].
        by apply (Hmin j).
      * apply list_lookup_singleton_Some in Hq as [_ <-].
        by apply greater_equal_refl.
    + intros j q [Hq|[Hj _]]%lookup_app_Some [Hqv _]; [|done].
      exfalso. unfold less_equal in Hqv.
      rewrite (greater_equal_trans v q best) in Hv; [done|done|].
      by apply (Hmin j).
Qed.

(** [np.argmin] returns a position of the list: that of the first NaN
    if there is one, and the first position of the least value
    otherwise. *)
Lemma argmin_spec l r :
  argmin l = inr r →
  ∃ m, l !! r = Some m
    ∧ (isnan m = true →
         ∀ j q, l !! j = Some q → isnan q = true → r ≤ j)
    ∧ (isnan m = false →
         Forall (λ q, isnan q = false) l
         ∧ (∀ j q, l !! j = Some q → less_equal m q)
         ∧ (∀ j q, l !! j = Some q → equal q m → r ≤ j)).
Proof.
  destruct l as [|v l]; simpl; [done|]. intros [= <-].
  destruct (isnan v) eqn:Hvn.
  { exists v. split; [done|]. split; [intros; lia|]. by rewrite Hvn. }
  apply (argmin_scan_spec l [v] v 0); [done|by apply Forall_singleton|..].
  - intros j q Hq. apply list_lookup_singleton_Some in Hq as [_ <-].
    by apply greater_equal_refl.
  - intros; lia.
Qed.

(** Without a NaN, [np.argmin] is the first position of the least
    value. *)
Lemma argmin_least l r :
  Forall (λ q, isnan q = false) l → argmin l = inr r →
  ∃ m, l !! r = Some m
    ∧ (∀ j q, l !! j = Some q → less_equal m q)
    ∧ (∀ j q, l !! j = Some q → equal q m → r ≤ j).
Proof.
  intros Hnan Hr. destruct (argmin_spec _ _ Hr) as (m & Hm & _ & Hleast).
  exists m. split; [done|]. apply Hleast.
  rewrite Forall_lookup in Hnan. eauto.
Qed.

(** With a NaN, [np.argmin] is the position of the first one. *)
Lemma argmin_nan l r j q :
  l !! j = Some q → isnan q = true → argmin l = inr r →
  ∃ m, l !! r = Some m ∧ isnan m = true ∧ r ≤ j.
Proof.
  intros Hq Hqn Hr. destruct (argmin_spec _ _ Hr) as (m & Hm & Hfirst & Hleast).
  exists m. split; [done|]. destruct (isnan m) eqn:Hmn.
  - split; [done|]. eauto.
  - destruct Hleast as [Hnan _]; [done|].
    rewrite Forall_lookup in Hnan. by rewrite (Hnan _ _ Hq) in Hqn.
Qed.

Lemma argmin_nonempty l : l ≠ [] → ∃ r, argmin l = inr r.
Proof. destruct l; [done|]. simpl. eauto. Qed.

End numpy_facts.

(** ** Facts about the context manager *)

Section context_manager_facts.
Import np ContextManager.

Lemma rbind_inr {A B} (c : result A) (k : A → result B) b :
  c ≫= k = inr b → ∃ a, c = inr a ∧ k a = inr b.
Proof. destruct c as [e|a]; simpl; [done|eauto]. Qed.

Lemma dict_get_key (d : dict) k : k ∈ keys d → ∃ v, dict_get d k = inr v.
Proof.
  induction d as [|[k' v] d IH]; simpl; [by intros ?%elem_of_nil|].
  intros Hk. case_decide; [eauto|].
  apply elem_of_cons in Hk as [->|Hk]; [done|auto].
Qed.

Lemma update_context_accepted sp (context : dict) ks : ∀ a,
  (∀ k, k ∈ ks → key_accepted sp context k) →
  ∃ a', update_context sp context ks a = inr a'.
Proof.
  induction ks as [|k ks IH]; intros [[ci cio] cv] Hacc; simpl; [eauto|].
  destruct (Hacc k) as (v & q & l & Hv & Hq & Hl); [by left|].
  rewrite Hv, Hq; simpl. rewrite Hl; simpl.
  apply IH. intros k' Hk'. apply Hacc. by right.
Qed.

Lemma update_context_found sp (context : dict) ks : ∀ a,
  ks ⊆ keys context →
  (∀ k, k ∈ ks → ∃ v, find_variable sp k = inr v) →
  context_encodable sp context →
  ∃ a', update_context sp context ks a = inr a'.
Proof.
  intros a Hks Hfind Henc. apply update_context_accepted. intros k Hk.
  destruct (Hfind k Hk) as [v Hv].
  destruct (dict_get_key context k) as [q Hq]; [by apply Hks|].
  destruct (Henc k v q Hv Hq) as [l Hl]. by exists v, q, l.
Qed.

Lemma update_context_range sp (context : dict) ks : ∀ ci cio cv ci' cio' cv',
  indices_in_range sp →
  update_context sp context ks (ci, cio, cv) = inr (ci', cio', cv') →
  Forall (λ c, c < model_dimensionality sp) ci →
  Forall (λ c, c < model_dimensionality sp) ci'.
Proof.
  induction ks as [|k ks IH]; intros ci cio cv ci' cio' cv' Hsp Hrun Hci;
    simpl in Hrun; [by simplify_eq|].
  apply rbind_inr in Hrun as (v & Hv & Hrun).
  apply rbind_inr in Hrun as (q & Hq & Hrun).
  apply rbind_inr in Hrun as (l & Hl & Hrun).
  eapply IH; [done|exact Hrun|].
  apply Forall_app; split; [done|]. by eapply Hsp.
Qed.

Lemma update_context_aligned sp (context : dict) ks : ∀ ci cio cv ci' cio' cv',
  encoding_aligned sp →
  update_context sp context ks (ci, cio, cv) = inr (ci', cio', cv') →
  length cv = length ci → length cv' = length ci'.
Proof.
  induction ks as [|k ks IH]; intros ci cio cv ci' cio' cv' Hsp Hrun Hci;
    simpl in Hrun; [by simplify_eq|].
  apply rbind_inr in Hrun as (v & Hv & Hrun).
  apply rbind_inr in Hrun as (q & Hq & Hrun).
  apply rbind_inr in Hrun as (l & Hl & Hrun).
  eapply IH; [done|exact Hrun|].
  rewrite !length_app, (Hsp _ _ q l Hv Hl). lia.
Qed.

Lemma update_context_nodup sp (context : dict) ks : ∀ ci cio cv ci' cio' cv',
  indices_exclusive sp → NoDup ks →
  update_context sp context ks (ci, cio, cv) = inr (ci', cio', cv') →
  NoDup ci →
  (∀ k v c, k ∈ ks → find_variable sp k = inr v → c ∈ index_in_model v → c ∉ ci) →
  NoDup ci'.
Proof.
  induction ks as [|k ks IH]; intros ci cio cv ci' cio' cv' Hsp Hks Hrun Hci Hnew;
    simpl in Hrun; [by simplify_eq|].
  apply rbind_inr in Hrun as (v & Hv & Hrun).
  apply rbind_inr in Hrun as (q & Hq & Hrun).
  apply rbind_inr in Hrun as (l & Hl & Hrun).
  apply NoDup_cons in Hks as [Hk Hks].
  eapply IH; [done|done|exact Hrun| |].
  - apply NoDup_app. split; [done|]. split.
    + intros c Hc Hc'. eapply Hnew; [by left|done..].
    + by destruct (Hsp k k v v Hv Hv).
  - intros k' v' c Hk' Hv' Hc [Hin|Hin]%elem_of_app.
    + eapply Hnew; [by right|done..].
    + destruct (Hsp k k' v v' Hv Hv') as [_ Hex].
      eapply Hex; [|done..]. by intros ->.
Qed.

Lemma select_items_in_range {A} (l : list A) idxs :
  Forall (λ c, c < length l) idxs → ∃ bs, select_items l idxs = inr bs.
Proof.
  induction 1 as [|c idxs Hc _ [bs IH]]; simpl; [eauto|].
  destruct (lookup_lt_is_Some_2 l c Hc) as [b ->].
  rewrite IH; simpl. eauto.
Qed.

(** The fields of a manager built with a context. *)
Lemma init_context_fields sp context cm :
  __init__ sp (Some context) = inr cm →
  ∃ ci cio cv,
    update_context sp context (keys context) ([], [], []) = inr (ci, cio, cv)
    ∧ space cm = sp
    ∧ all_index cm = seq 0 (model_dimensionality sp)
    ∧ context_index cm = ci
    ∧ context_value cm = cv
    ∧ noncontext_index cm = filter (λ idx, idx ∉ ci) (seq 0 (model_dimensionality sp)).
Proof.
  unfold __init__. intros Hinit.
  apply rbind_inr in Hinit as ([[ci cio] cv] & Hupd & Hinit).
  apply rbind_inr in Hinit as (nb & Hnb & Hinit).
  injection Hinit as <-. by exists ci, cio, cv.
Qed.

(** Construction succeeds when the context names variables of the space. *)
Lemma init_context_succeeds sp context :
  bounds_cover sp →
  (∀ k, k ∈ keys context → ∃ v, find_variable sp k = inr v) →
  context_encodable sp context →
  ∃ cm, __init__ sp (Some context) = inr cm.
Proof.
  intros Hb Hfind Henc. unfold __init__.
  destruct (update_context_found sp context (keys context) ([], [], []))
    as [[[ci cio] cv] ->]; [done..|]; simpl.
  destruct (select_items_in_range (get_bounds sp)
              (filter (λ idx, idx ∉ ci) (seq 0 (model_dimensionality sp))))
    as [nb ->]; simpl; [|eauto].
  apply Forall_forall. intros c [_ Hc%elem_of_seq]%list_elem_of_filter.
  rewrite Hb. lia.
Qed.

Lemma init_no_context_expandable sp cm :
  __init__ sp None = inr cm → expandable cm.
Proof.
  intros [= <-]. split; simpl.
  - apply NoDup_seq.
  - apply Forall_forall. intros c Hc%elem_of_seq. lia.
  - constructor.
  - by intros c ?%elem_of_nil.
  - done.
Qed.

Lemma init_context_expandable sp context cm :
  indices_in_range sp → encoding_aligned sp →
  __init__ sp (Some context) = inr cm → expandable cm.
Proof.
  intros Hrange Halign Hinit.
  destruct (init_context_fields _ _ _ Hinit)
    as (ci & cio & cv & Hupd & Hsp & _ & Hci & Hcv & Hnci).
  split; rewrite ?Hsp, ?Hci, ?Hcv, ?Hnci.
  - apply NoDup_filter, NoDup_seq.
  - apply Forall_forall. intros c [_ Hc%elem_of_seq]%list_elem_of_filter. lia.
  - by eapply update_context_range.
  - intros c Hc [Hc' _]%list_elem_of_filter. done.
  - by eapply update_context_aligned.
Qed.

Lemma init_expandable sp context cm :
  indices_in_range sp → encoding_aligned sp →
  __init__ sp context = inr cm → expandable cm.
Proof.
  destruct context; [apply init_context_expandable|].
  intros _ _. apply init_no_context_expandable.
Qed.

Lemma init_context_index_nodup sp context cm :
  indices_exclusive sp → distinct_keys context →
  __init__ sp context = inr cm → NoDup (context_index cm).
Proof.
  destruct context as [context|]; simpl; [|intros _ _ [= <-]; constructor].
  intros Hex Hkeys Hinit.
  destruct (init_context_fields _ _ _ Hinit)
    as (ci & cio & cv & Hupd & _ & _ & -> & _).
  eapply update_context_nodup; [done|exact Hkeys|exact Hupd|constructor|].
  by intros k v c _ _ _ ?%elem_of_nil.
Qed.

(** The two assignments of [_expand_vector], entry by entry. *)
Lemma expand_vector_spec cm x :
  expandable cm →
  well_shaped (atleast_2d x) →
  shape1 (atleast_2d x) = length (noncontext_index cm) →
  ∃ y, _expand_vector cm x = inr y
    ∧ shape0 y = shape0 (atleast_2d x)
    ∧ shape1 y = model_dimensionality (space cm)
    ∧ well_shaped y
    ∧ (∀ i k c, i < shape0 y → noncontext_index cm !! k = Some c →
         entry y i c = entry (atleast_2d x) i k)
    ∧ (NoDup (context_index cm) →
       ∀ i k c, i < shape0 y → context_index cm !! k = Some c →
         entry y i c = context_value cm !! k).
Proof.
  intros [Hnd Hnr Hcr Hap Hcv] Hx Hw. unfold _expand_vector.
  set (x2 := atleast_2d x) in *.
  destruct (setitem_columns_spec
              (zeros (shape0 x2) (model_dimensionality (space cm)))
              (noncontext_index cm) x2)
    as (y1 & -> & H10 & H11 & Hy1 & _ & Hy1w);
    [apply well_shaped_zeros|by left|by left|done|].
  unfold mbind, result_bind.
  destruct (setitem_columns_spec y1 (context_index cm)
              (atleast_2d (Vector (context_value cm))))
    as (y & -> & H0 & H1 & Hy & Hyk & Hyw);
    [done|by right|by left|by rewrite H11|].
  simpl in *. exists y.
  split; [done|]. split; [congruence|]. split; [congruence|].
  split; [done|]. split.
  - intros i k c Hi Hk.
    rewrite Hyk by (intros Hc; eapply Hap; [done|by eapply list_elem_of_lookup_2]).
    rewrite (Hy1w Hnd i k c) by (done || lia).
    symmetry. apply broadcast_entry_exact; [done|lia|].
    rewrite Hw. by eapply lookup_lt_Some.
  - intros Hcnd i k c Hi Hk.
    rewrite (Hyw Hcnd i k c) by (done || lia).
    symmetry. apply broadcast_entry_vector.
    rewrite Hcv. by eapply lookup_lt_Some.
Qed.

End context_manager_facts.

(** ** Rules for statements *)

Section statement_rules.
Context `{Collaborators}.
Import AcquisitionOptimizer.

Lemma assign_bind {B} upd (k : () → M B) h :
  (assign upd ≫= k) h
  = k () (Heap (upd (this h)) (duplicate_manager h) (stdout h)).
Proof. done. Qed.

Lemma bind_returns {A B} (c : M A) (k : A → M B) h b h' :
  (c ≫= k) h = (inr b, h') →
  ∃ a h1, c h = (inr a, h1) ∧ k a h1 = (inr b, h').
Proof.
  unfold mbind, M_bind. destruct (c h) as [[e|a] h1]; [done|]. eauto.
Qed.

(** *** Frame rules *)

Section frame_rules.
Context {X : Type} (obs : heap → X).

Lemma keeps_ret {A} (a : A) : keeps obs (mret a).
Proof. by intros h r h' [= <- <-]. Qed.

Lemma keeps_raise {A} e : keeps obs (raise (A:=A) e).
Proof. by intros h r h' [= <- <-]. Qed.

Lemma keeps_lift {A} (c : result A) : keeps obs (lift c).
Proof. by intros h r h' [= <- <-]. Qed.

Lemma keeps_self : keeps obs self.
Proof. by intros h r h' [= <- <-]. Qed.

Lemma keeps_getattr {A} (a : attr A) : keeps obs (getattr a).
Proof. destruct a; [apply keeps_raise|apply keeps_ret]. Qed.

Lemma keeps_bind {A B} (c : M A) (k : A → M B) :
  keeps obs c → (∀ a, keeps obs (k a)) → keeps obs (c ≫= k).
Proof.
  intros Hc Hk h r h'. unfold mbind, M_bind.
  destruct (c h) as [[e|a] h1] eqn:Hrun.
  - intros [= <- <-]. exact (Hc _ _ _ Hrun).
  - intros Hrun'. rewrite <- (Hc _ _ _ Hrun). exact (Hk a _ _ _ Hrun').
Qed.

Lemma keeps_mapM {A B} (body : A → M B) l :
  (∀ a, keeps obs (body a)) → keeps obs (mapM body l).
Proof.
  intros Hbody. induction l as [|a l IH]; [apply keeps_ret|].
  apply keeps_bind; [done|]. intros b.
  apply keeps_bind; [done|]. intros bs. apply keeps_ret.
Qed.

Lemma keeps_assign upd :
  (∀ h, obs (Heap (upd (this h)) (duplicate_manager h) (stdout h)) = obs h) →
  keeps obs (assign upd).
Proof. intros Hupd h r h' [= <- <-]. apply Hupd. Qed.

Lemma keeps_call {A} (callee : managers → result A * managers) :
  (∀ h, obs (Heap (with_context_manager
                     (context_manager_obj (callee (managers_of h)).2) (this h))
                  (duplicate_manager_obj (callee (managers_of h)).2)
                  (stdout h)) = obs h) →
  keeps obs (call callee).
Proof.
  intros Hcall h r h'. unfold call. specialize (Hcall h).
  unfold managers_of in Hcall.
  destruct (callee _) as [r' m]. by intros [= <- <-].
Qed.

Lemma keeps_call_bounds {A}
    (callee : list (Q * Q) → result A * list (Q * Q)) :
  (∀ h b, obs (Heap (with_context_manager
                       (ContextManager.with_noncontext_bounds b
                          (context_manager (this h)))
                       (this h))
                    (duplicate_manager h) (stdout h)) = obs h) →
  keeps obs (call_bounds callee).
Proof.
  intros Hcall h r h'. unfold call_bounds.
  destruct (callee _) as [r' b]. intros [= <- <-]. apply Hcall.
Qed.

Lemma keeps_print line :
  (∀ h, obs (Heap (this h) (duplicate_manager h) (stdout h ++ [line])) = obs h) →
  keeps obs (print line).
Proof. intros Hprint h r h' [= <- <-]. apply Hprint. Qed.

End frame_rules.

(** *** Invariants of the two managers *)

Lemma maintains_keeps {A} (P : managers → Prop) (c : M A) :
  keeps managers_of c → maintains (λ h, P (managers_of h)) c.
Proof. intros Hc h r h' HP Hrun. by rewrite (Hc _ _ _ Hrun). Qed.

Lemma maintains_bind {A B} inv (c : M A) (k : A → M B) :
  maintains inv c → (∀ a, maintains inv (k a)) → maintains inv (c ≫= k).
Proof.
  intros Hc Hk h r h' Hinv. unfold mbind, M_bind.
  destruct (c h) as [[e|a] h1] eqn:Hrun.
  - intros [= <- <-]. exact (Hc _ _ _ Hinv Hrun).
  - intros Hrun'. exact (Hk a _ _ _ (Hc _ _ _ Hinv Hrun) Hrun').
Qed.

Lemma maintains_mapM {A B} inv (body : A → M B) l :
  (∀ a, maintains inv (body a)) → maintains inv (mapM body l).
Proof.
  intros Hbody. induction l as [|a l IH]; [by intros h r h' ? [= <- <-]|].
  apply maintains_bind; [done|]. intros b.
  apply maintains_bind; [done|]. intros bs. by intros h r h' ? [= <- <-].
Qed.

Lemma maintains_call {A} (P : managers → Prop)
    (callee : managers → result A * managers) :
  (∀ m, P m → P (callee m).2) →
  maintains (λ h, P (managers_of h)) (call callee).
Proof.
  intros Hcallee h r h' HP. unfold call. specialize (Hcallee _ HP).
  unfold managers_of in *.
  destruct (callee _) as [r' [cm dm]]. by intros [= <- <-].
Qed.

Lemma maintains_call_bounds {A} (P : managers → Prop)
    (callee : list (Q * Q) → result A * list (Q * Q)) :
  (∀ cm dm, P (Managers cm dm) →
     P (Managers
          (ContextManager.with_noncontext_bounds
             (callee (ContextManager.noncontext_bounds cm)).2 cm) dm)) →
  maintains (λ h, P (managers_of h)) (call_bounds callee).
Proof.
  intros Hcallee h r h' HP. unfold call_bounds. specialize (Hcallee _ _ HP).
  unfold managers_of in *.
  destruct (callee _) as [r' b]. by intros [= <- <-].
Qed.

(** *** Statements that do not depend on [self.df] *)

Lemma blind_ret {A} (a : A) : df_blind (mret a).
Proof. done. Qed.

Lemma blind_raise {A} e : df_blind (raise (A:=A) e).
Proof. done. Qed.

Lemma blind_lift {A} (c : result A) : df_blind (lift c).
Proof. done. Qed.

Lemma blind_getattr {A} (a : attr A) : df_blind (getattr a).
Proof. by destruct a. Qed.

Lemma blind_print line : df_blind (print line).
Proof. done. Qed.

Lemma blind_call {A} (callee : managers → result A * managers) :
  df_blind (call callee).
Proof. intros h. unfold call; simpl. by destruct (callee _). Qed.

Lemma blind_call_bounds {A}
    (callee : list (Q * Q) → result A * list (Q * Q)) :
  df_blind (call_bounds callee).
Proof. intros h. unfold call_bounds; simpl. by destruct (callee _). Qed.

Lemma blind_assign upd :
  (∀ s, upd (clear_df s) = clear_df (upd s)) → df_blind (assign upd).
Proof. intros Hupd h. unfold assign, forget_df; simpl. by rewrite Hupd. Qed.

Lemma blind_bind {A B} (c : M A) (k : A → M B) :
  df_blind c → (∀ a, df_blind (k a)) → df_blind (c ≫= k).
Proof.
  intros Hc Hk h. unfold mbind, M_bind. rewrite Hc.
  destruct (c h) as [[e|a] h1]; simpl; [done|]. apply Hk.
Qed.

(** [self] hands out the whole object; what follows must not look at
    its [df]. *)
Lemma blind_self_bind {B} (k : t → M B) :
  (∀ s, k (clear_df s) = k s) → (∀ s, df_blind (k s)) →
  df_blind (self ≫= k).
Proof.
  intros Hk Hb h. unfold mbind, M_bind, self; simpl.
  rewrite Hk. apply Hb.
Qed.

Lemma blind_mapM {A B} (body : A → M B) l :
  (∀ a, df_blind (body a)) → df_blind (mapM body l).
Proof.
  intros Hbody. induction l as [|a l IH]; [done|].
  apply blind_bind; [done|]. intros b.
  apply blind_bind; [done|]. intros bs. apply blind_ret.
Qed.

End statement_rules.

(** Follows the structure of a statement with the frame rules; what is
    left are the assignments and calls that touch the observation. *)
Ltac frame :=
  repeat first
    [ apply keeps_ret | apply keeps_raise | apply keeps_lift
    | apply keeps_self | apply keeps_getattr
    | apply keeps_bind; [|intros ?]
    | apply keeps_mapM; intros ?
    | apply keeps_assign; intros ?; reflexivity
    | apply keeps_call; intros ?; reflexivity
    | apply keeps_call_bounds; intros ? ?; reflexivity
    | apply keeps_print; intros ?; reflexivity
    | case_match ].

(** Follows the structure of a statement with the rules for invariants
    of the managers; what is left are the calls of the collaborators. *)
Ltac upkeep :=
  repeat first
    [ apply maintains_keeps; frame; fail
    | apply maintains_bind; [|intros ?]
    | apply maintains_mapM; intros ?
    | case_match ].

Ltac blind :=
  repeat first
    [ apply blind_ret | apply blind_raise | apply blind_lift
    | apply blind_getattr | apply blind_print | apply blind_call
    | apply blind_call_bounds
    | apply blind_assign; intros ?; reflexivity
    | apply blind_self_bind; [intros ?; reflexivity|intros ?]
    | apply blind_bind; [|intros ?]
    | apply blind_mapM; intros ?
    | case_match ].

(** ** Facts about the acquisition optimizer *)

Section acquisition_optimizer_facts.
Context `{Collaborators}.
Import AcquisitionOptimizer.

Lemma selection_phase_empty h :
  selection_phase [] h = (inl ValueError, h).
Proof. done. Qed.

Lemma selection_phase_nonempty pts h :
  pts ≠ [] →
  ∃ i p, np.argmin (pts.*2) = inr i ∧ pts !! i = Some p
    ∧ selection_phase pts h = (inr p, after_selection i h).
Proof.
  intros Hne.
  destruct (argmin_nonempty (pts.*2)) as [i Hi]; [by destruct pts|].
  destruct (argmin_spec _ _ Hi) as (m & Hm & _).
  rewrite list_lookup_fmap in Hm.
  destruct (pts !! i) as [[x fx]|] eqn:Hp; [|done].
  exists i, (x, fx). split; [done|]. split; [done|].
  assert (np.vstack_flatten (pts.*2) = inr (pts.*2)) as Hv
    by (by destruct pts).
  unfold selection_phase, after_selection, mbind, M_bind, lift, getitem.
  rewrite Hv, Hi, Hp.
  by case_bool_decide.
Qed.

(** [optimize] is its three phases in sequence. *)
Lemma optimize_phases f df f_df x_opt h :
  optimize f df f_df x_opt h =
  (anchor_points ← anchor_points_phase f df f_df x_opt;
   optimized_points ← optimized_points_phase f f_df anchor_points;
   selection_phase optimized_points) h.
Proof.
  unfold optimize, anchor_points_phase, optimized_points_phase, selection_phase.
  unfold mbind, M_bind, assign, self, lift; cbn beta iota zeta.
  repeat (case_match; simplify_eq/=; try done).
Qed.

Lemma optimized_points_phase_cons f f_df a anchors h :
  optimized_points_phase f f_df (a :: anchors) h =
  (p ← (s ← self;
        opt ← getattr (optimizer s);
        call (apply_optimizer (apply_optimizer_call s opt a f f_df)));
   ps ← optimized_points_phase f f_df anchors;
   mret (p :: ps)) h.
Proof. done. Qed.

(** The first phase assigns [f], [df], [f_df] and [optimizer] only. *)
Lemma anchor_points_phase_frame f df f_df x_opt :
  keeps bookkeeping (anchor_points_phase f df f_df x_opt).
Proof. unfold anchor_points_phase. frame. Qed.

(** The second phase assigns nothing. *)
Lemma optimized_points_phase_frame f f_df anchors :
  keeps (λ h, (bookkeeping h, optimizer (this h)))
        (optimized_points_phase f f_df anchors).
Proof. unfold optimized_points_phase. frame. Qed.

Lemma call_read_only {A} (callee : managers → result A * managers) :
  (∀ m, (callee m).2 = m) → keeps managers_of (call callee).
Proof. intros Hro. apply keeps_call. intros h. by rewrite Hro. Qed.

Lemma call_bounds_read_only {A}
    (callee : list (Q * Q) → result A * list (Q * Q)) :
  (∀ b, (callee b).2 = b) → keeps managers_of (call_bounds callee).
Proof.
  intros Hro h r h'. unfold call_bounds.
  specialize (Hro (ContextManager.noncontext_bounds (context_manager (this h)))).
  destruct (callee _) as [r' b]. simpl in Hro. subst b.
  intros [= <- <-]. unfold managers_of; simpl. f_equal.
  by destruct (context_manager (this h)).
Qed.

Lemma anchor_points_phase_managers f df f_df x_opt :
  read_only_collaborators →
  keeps managers_of (anchor_points_phase f df f_df x_opt).
Proof.
  intros (Hchoose & Hget & _). unfold anchor_points_phase. frame.
  - apply call_bounds_read_only, Hchoose.
  - apply call_read_only, Hget.
Qed.

Lemma optimized_points_phase_managers f f_df anchors :
  read_only_collaborators →
  keeps managers_of (optimized_points_phase f f_df anchors).
Proof.
  intros (_ & _ & Happly). unfold optimized_points_phase. frame.
  apply call_read_only, Happly.
Qed.

Lemma selection_phase_managers pts : keeps managers_of (selection_phase pts).
Proof.
  unfold selection_phase. frame.
Qed.

(** One result per anchor, in order. *)
Lemma optimized_points_phase_length f f_df anchors : ∀ h pts h',
  optimized_points_phase f f_df anchors h = (inr pts, h') →
  length pts = length anchors.
Proof.
  induction anchors as [|a anchors IH]; intros h pts h' Hrun.
  { by injection Hrun as <- <-. }
  rewrite optimized_points_phase_cons in Hrun.
  apply bind_returns in Hrun as (p & h1 & _ & Hrun).
  apply bind_returns in Hrun as (ps & h2 & Hrest & Hrun).
  injection Hrun as <- <-. simpl. f_equal. eauto.
Qed.

Lemma optimized_points_phase_blind f f_df anchors :
  df_blind (optimized_points_phase f f_df anchors).
Proof. unfold optimized_points_phase. blind. Qed.

Lemma selection_phase_blind pts : df_blind (selection_phase pts).
Proof. unfold selection_phase. blind. Qed.

End acquisition_optimizer_facts.

(** * The properties *)

Section context_manager_properties.
Import np ContextManager.

(** C5. Without a context the manager holds the full bounds of the
    space, [noncontext_index] is [all_index], the context index and
    value are empty, and [_expand_vector] returns its input (as a 2-D
    array) whenever the input has one column per model dimension. *)
Theorem no_context_expand_identity sp x :
  well_shaped (atleast_2d x) →
  shape1 (atleast_2d x) = model_dimensionality sp →
  ∃ cm, __init__ sp None = inr cm
    ∧ noncontext_bounds cm = get_bounds sp
    ∧ all_index cm = seq 0 (model_dimensionality sp)
    ∧ noncontext_index cm = all_index cm
    ∧ context_index cm = []
    ∧ context_value cm = []
    ∧ _expand_vector cm x = inr (atleast_2d x).
Proof.
  intros Hx Hw. eexists. split; [reflexivity|].
  do 5 (split; [reflexivity|]).
  match goal with |- _expand_vector ?c _ = _ => set (cm := c) end.
  destruct (expand_vector_spec cm x) as (y & -> & H0 & H1 & Hy & Hnc & _);
    [by apply (init_no_context_expandable sp)|done
    |by subst cm; simpl; rewrite length_seq|].
  f_equal. apply ndarray_ext; [done..|congruence| |].
  { by rewrite H1, Hw. }
  intros i j Hi Hj. apply Hnc; [done|].
  rewrite H1 in Hj. simpl. by apply lookup_seq_lt.
Qed.

(** C6. For a context whose variables the space knows, construction
    succeeds as soon as the space encodes the context's values, and in
    every manager built from the context the index lists partition the
    model dimensions: an index is in
    [all_index = [0, model_dimensionality)] exactly when it is in
    [context_index] or in [noncontext_index], no index is in both, and
    [noncontext_index] lists its members in the order of [all_index],
    each once. *)
Theorem context_index_partition sp (context : dict) :
  bounds_cover sp →
  indices_in_range sp →
  (∀ k, k ∈ keys context → ∃ v, find_variable sp k = inr v) →
  (context_encodable sp context → ∃ cm, __init__ sp (Some context) = inr cm)
  ∧ ∀ cm, __init__ sp (Some context) = inr cm →
      all_index cm = seq 0 (model_dimensionality sp)
      ∧ (∀ i, i ∈ all_index cm ↔ i ∈ context_index cm ∨ i ∈ noncontext_index cm)
      ∧ (∀ i, i ∈ context_index cm → i ∉ noncontext_index cm)
      ∧ sublist (noncontext_index cm) (all_index cm)
      ∧ NoDup (noncontext_index cm).
Proof.
  intros Hbounds Hrange Hfind.
  split; [by apply init_context_succeeds|]. intros cm Hinit.
  destruct (init_context_fields _ _ _ Hinit)
    as (ci & cio & cv & Hupd & _ & -> & -> & _ & ->).
  split; [done|].
  assert (Forall (λ c, c < model_dimensionality sp) ci) as Hci
    by (by eapply update_context_range).
  rewrite Forall_forall in Hci.
  split; [|split; [|split]].
  - intros i. rewrite list_elem_of_filter, elem_of_seq. split.
    + intros Hi. destruct (decide (i ∈ ci)); [by left|by right].
    + intros [Hi|[_ Hi]]; [|done]. specialize (Hci i Hi). lia.
  - intros i Hi [Hi' _]%list_elem_of_filter. done.
  - apply sublist_filter.
  - apply NoDup_filter, NoDup_seq.
Qed.

(** C7. On a manager built from a space that keeps the invariants of
    the data model, [_expand_vector] maps an input with [n] rows and one
    column per non-context index (a flat input being one row) to an
    array of shape [(n, model_dimensionality)] whose column
    [noncontext_index[k]] is column [k] of the input and whose column
    [context_index[k]] holds [context_value[k]]; the two index lists
    together name every model dimension exactly once. *)
Theorem expand_vector_columns sp context cm x :
  indices_in_range sp →
  indices_exclusive sp →
  encoding_aligned sp →
  distinct_keys context →
  __init__ sp context = inr cm →
  well_shaped (atleast_2d x) →
  shape1 (atleast_2d x) = length (noncontext_index cm) →
  ∃ y, _expand_vector cm x = inr y
    ∧ well_shaped y
    ∧ shape0 y = shape0 (atleast_2d x)
    ∧ shape1 y = model_dimensionality sp
    ∧ (∀ i k c, i < shape0 y → noncontext_index cm !! k = Some c →
         is_Some (entry y i c) ∧ entry y i c = entry (atleast_2d x) i k)
    ∧ (∀ i k c, i < shape0 y → context_index cm !! k = Some c →
         is_Some (entry y i c) ∧ entry y i c = context_value cm !! k)
    ∧ noncontext_index cm ++ context_index cm
      ≡ₚ seq 0 (model_dimensionality sp).
Proof.
  intros Hrange Hexcl Halign Hkeys Hinit Hx Hw.
  pose proof (init_expandable _ _ _ Hrange Halign Hinit) as Hcm.
  pose proof (init_context_index_nodup _ _ _ Hexcl Hkeys Hinit) as Hnd.
  assert (space cm = sp) as Hsp.
  { destruct context; [|by injection Hinit as <-].
    by destruct (init_context_fields _ _ _ Hinit) as (?&?&?&?&?&?). }
  assert (∀ c, c < model_dimensionality sp → c ∉ context_index cm →
               c ∈ noncontext_index cm) as Hnci.
  { intros c Hlt Hc. destruct context.
    - destruct (init_context_fields _ _ _ Hinit)
        as (?&?&?&?&?&?&Hci&?&->).
      apply list_elem_of_filter. split; [by rewrite <- Hci|].
      apply elem_of_seq. lia.
    - injection Hinit as <-; simpl. apply elem_of_seq. lia. }
  destruct (expand_vector_spec cm x Hcm Hx Hw)
    as (y & Hy & H0 & H1 & Hwy & Hnc & Hc).
  destruct Hcm as [Hnnd Hnr Hcr Hap Hcv]. rewrite Hsp in *.
  rewrite Forall_forall in Hnr. rewrite Forall_forall in Hcr.
  exists y. do 4 (split; [done|]). split; [|split].
  - intros i k c Hi Hk. split; [|by apply Hnc].
    apply entry_Some; [done..|]. rewrite H1.
    by eapply Hnr, list_elem_of_lookup_2.
  - intros i k c Hi Hk. split; [|by apply Hc].
    apply entry_Some; [done..|]. rewrite H1.
    by eapply Hcr, list_elem_of_lookup_2.
  - apply NoDup_Permutation; [|apply NoDup_seq|].
    + apply NoDup_app. split; [done|]. split; [|done].
      intros c Hc1 Hc2. by apply (Hap c).
    + intros c. rewrite elem_of_app, elem_of_seq. split.
      * intros [Hin|Hin]; [specialize (Hnr c Hin)|specialize (Hcr c Hin)]; lia.
      * intros Hlt. destruct (decide (c ∈ context_index cm)); [by right|].
        left. apply Hnci; [lia|done].
Qed.

(** C8. With [y = _expand_vector(x)], the non-context columns of [y]
    are [x], and expanding them again gives [y]. *)
Theorem expand_vector_round_trip sp context cm x :
  indices_in_range sp →
  encoding_aligned sp →
  __init__ sp context = inr cm →
  well_shaped (atleast_2d x) →
  shape1 (atleast_2d x) = length (noncontext_index cm) →
  ∃ y, _expand_vector cm x = inr y
    ∧ getitem_columns y (noncontext_index cm) = inr (atleast_2d x)
    ∧ _expand_vector cm (Matrix (atleast_2d x)) = inr y.
Proof.
  intros Hrange Halign Hinit Hx Hw.
  pose proof (init_expandable _ _ _ Hrange Halign Hinit) as Hcm.
  destruct (expand_vector_spec cm x Hcm Hx Hw)
    as (y & Hy & H0 & H1 & Hwy & Hnc & _).
  exists y. split; [done|]. split; [|done].
  destruct (getitem_columns_spec y (noncontext_index cm))
    as (z & -> & Hz0 & Hz1 & Hwz & Hz); [done|by rewrite H1; destruct Hcm|].
  f_equal. apply ndarray_ext; [done..|congruence|congruence|].
  intros i k Hi Hk. rewrite Hz0 in Hi. rewrite Hz1 in Hk.
  destruct (lookup_lt_is_Some_2 _ _ Hk) as [c Hc].
  rewrite (Hz i k c Hi Hc). by apply Hnc.
Qed.

End context_manager_properties.

Section acquisition_optimizer_properties.
Context `{Collaborators}.
Import AcquisitionOptimizer.


(** C1, as the code has it. When the per-anchor runs produce a
    non-empty list of (point, value) pairs, [optimize] returns one of
    them. If no value is NaN, its value is at most the value of every
    pair, and among the pairs of that value it is the one of the
    earliest anchor. If some value is NaN, the returned value is NaN and
    the pair is the earliest one with a NaN. *)
Theorem optimize_returns_first_minimum f df f_df x_opt h anchors h0 pts h1 :
  anchor_points_phase f df f_df x_opt h = (inr anchors, h0) →
  optimized_points_phase f f_df anchors h0 = (inr pts, h1) →
  pts ≠ [] →
  ∃ i x_min fx_min h',
    optimize f df f_df x_opt h = (inr (x_min, fx_min), h')
    ∧ i < length anchors
    ∧ pts !! i = Some (x_min, fx_min)
    ∧ (Forall (λ p, np.isnan p.2 = false) pts →
         (∀ j p, pts !! j = Some p → np.less_equal fx_min p.2)
         ∧ (∀ j p, pts !! j = Some p → np.equal p.2 fx_min → i ≤ j))
    ∧ (∀ j p, pts !! j = Some p → np.isnan p.2 = true →
         np.isnan fx_min = true ∧ i ≤ j).
Proof.
  intros Hanchors Hpts Hne.
  destruct (selection_phase_nonempty pts h1 Hne) as (i & [x fx] & Hi & Hp & Hsel).
  exists i, x, fx, (after_selection i h1).
  split; [|split; [|split; [done|split]]].
  - rewrite optimize_phases. unfold mbind, M_bind.
    by rewrite Hanchors, Hpts.
  - rewrite <- (optimized_points_phase_length _ _ _ _ _ _ Hpts).
    by eapply lookup_lt_Some.
  - intros Hnan.
    destruct (argmin_least (pts.*2) i) as (m & Hm & Hmin & Hfirst);
      [by apply Forall_fmap|done|].
    rewrite list_lookup_fmap, Hp in Hm. injection Hm as <-. split.
    + intros j p Hj. apply (Hmin j). by rewrite list_lookup_fmap, Hj.
    + intros j p Hj. apply (Hfirst j). by rewrite list_lookup_fmap, Hj.
  - intros j p Hj Hpn.
    destruct (argmin_nan (pts.*2) i j p.2) as (m & Hm & Hmn & Hle);
      [by rewrite list_lookup_fmap, Hj|done..|].
    rewrite list_lookup_fmap, Hp in Hm. by injection Hm as <-.
Qed.

(** C2, as the code has it. When anchor generation returns no point,
    [optimize] fails: [np.vstack] refuses the empty list with a
    [ValueError], and the heap is the one anchor generation left. *)
Theorem optimize_no_anchor_points f df f_df x_opt h h0 :
  anchor_points_phase f df f_df x_opt h = (inr [], h0) →
  optimize f df f_df x_opt h = (inl ValueError, h0).
Proof.
  intros Hanchors. rewrite optimize_phases. unfold mbind, M_bind.
  by rewrite Hanchors.
Qed.

(** C3, as the code has it. Every per-anchor run receives [df=None]
    together with the supplied [f] and [f_df]; the supplied [df] is only
    stored on [self]: two calls that differ in [df] alone return the same
    result and leave heaps that differ in [self.df] alone. *)
Theorem optimize_ignores_df f df df' f_df x_opt h :
  (∀ s opt a,
     arg_df (apply_optimizer_call s opt a f f_df) = None
     ∧ arg_f (apply_optimizer_call s opt a f f_df) = f
     ∧ arg_f_df (apply_optimizer_call s opt a f f_df) = f_df)
  ∧ (optimize f df f_df x_opt h).1 = (optimize f df' f_df x_opt h).1
  ∧ forget_df (optimize f df f_df x_opt h).2
    = forget_df (optimize f df' f_df x_opt h).2
  ∧ AcquisitionOptimizer.df (this (anchor_points_phase f df f_df x_opt h).2)
    = Attr df.
Proof.
  split; [done|].
  assert ((optimize f df f_df x_opt h).1 = (optimize f df' f_df x_opt h).1
          ∧ forget_df (optimize f df f_df x_opt h).2
            = forget_df (optimize f df' f_df x_opt h).2) as [Hr Hh].
  { unfold optimize.
    repeat (rewrite assign_bind; cbn beta).
    match goal with
    | |- (?c ?h1).1 = (?c ?h2).1 ∧ _ =>
        assert (df_blind c) as Hb by blind;
        pose proof (eq_trans (eq_sym (Hb h1)) (Hb h2)
                    : ((c h1).1, forget_df (c h1).2)
                      = ((c h2).1, forget_df (c h2).2)) as E
    end.
    split; [exact (f_equal fst E)|exact (f_equal snd E)]. }
  split; [done|]. split; [done|].
  unfold anchor_points_phase.
  repeat (rewrite assign_bind; cbn beta).
  match goal with
  | |- context [(?c ?h1).2] =>
      assert (keeps (λ h, AcquisitionOptimizer.df (this h)) c) as Hk by frame;
      destruct (c h1) as [r h'] eqn:Hrun; exact (Hk _ _ _ Hrun)
  end.
Qed.


(** The statements of [optimize] assign neither manager: the two are,
    after the call, as the collaborators left them. *)
Lemma optimize_keeps_managers f df f_df x_opt :
  read_only_collaborators →
  keeps managers_of (optimize f df f_df x_opt).
Proof.
  intros (Hchoose & Hget & Happly). unfold optimize. frame.
  - apply call_bounds_read_only, Hchoose.
  - apply call_read_only, Hget.
  - apply call_read_only, Happly.
Qed.

(** C10. With [type_anchor_points_logic] a string other than
    "max_objective" and "thompson_sampling", construction succeeds and
    keeps the string; every later call of [optimize] raises and leaves
    the string in place; the exception is [UnboundLocalError] as soon as
    [choose_optimizer] returns, and the one [choose_optimizer] raised
    otherwise. *)
Theorem optimize_unknown_anchor_points_logic sp optimizer_arg kwargs logic :
  kwargs !! "type_anchor_points_logic" = Some (PyStr logic) →
  logic ≠ "max_objective" →
  logic ≠ "thompson_sampling" →
  ∃ s, __init__ sp optimizer_arg kwargs = inr s
    ∧ type_anchor_points_logic s = PyStr logic
    ∧ ∀ h f df f_df x_opt,
        type_anchor_points_logic (this h) = PyStr logic →
        ∃ e h', optimize f df f_df x_opt h = (inl e, h')
          ∧ type_anchor_points_logic (this h') = PyStr logic
          ∧ match (choose_optimizer (optimizer_name (this h))
                     (ContextManager.noncontext_bounds (context_manager (this h)))).1
            with
            | inr _ => e = UnboundLocalError
            | inl e0 => e = e0
            end.
Proof.
  intros Hkw Hmax Hthompson. eexists. split; [|split].
  - unfold __init__. simpl. rewrite Hkw. reflexivity.
  - done.
  - intros h f df f_df x_opt Hlogic.
    unfold optimize.
    repeat (rewrite assign_bind; cbn beta).
    unfold mbind at 1 2, M_bind at 1 2, self at 1, call_bounds at 1.
    cbn beta iota zeta. simpl optimizer_name. simpl context_manager.
    destruct (choose_optimizer _ _) as [[e0|opt] b].
    { eexists _, _. split; [reflexivity|]. by split. }
    rewrite assign_bind; cbn beta.
    unfold mbind at 1 2, M_bind at 1 2, self at 1.
    cbn beta iota zeta. simpl (type_anchor_points_logic _). rewrite Hlogic.
    unfold py_eq_str.
    rewrite !bool_decide_eq_false_2 by done.
    eexists _, _. split; [reflexivity|]. by split.
Qed.

End acquisition_optimizer_properties.

Section managers_properties.
Context `{Externals}.
Import AcquisitionOptimizer.

Lemma querying_collaborators_read_only (q : QueryingCollaborators) :
  @read_only_collaborators _ (as_collaborators q).
Proof. done. Qed.

(** C9. With the collaborators the specification describes, which
    query the managers they are handed and return only their result, a
    call of [optimize] leaves both managers as it found them, whether it
    returns or raises: no field of [self.context_manager] changes and
    the duplicate manager is the one passed in. *)
Theorem optimize_managers_read_only (q : QueryingCollaborators)
    f df f_df x_opt h r h' :
  @optimize _ (as_collaborators q) f df f_df x_opt h = (r, h') →
  context_manager (this h') = context_manager (this h)
  ∧ duplicate_manager h' = duplicate_manager h.
Proof.
  intros Hrun.
  apply (@optimize_keeps_managers _ (as_collaborators q)) in Hrun;
    [|apply querying_collaborators_read_only].
  by injection Hrun as -> ->.
Qed.

End managers_properties.

(** * The properties on concrete inputs *)

Section examples.
Import np AcquisitionOptimizer.

Lemma demo_space_in_range : indices_in_range demo_space.
Proof.
  intros name v Hv. simpl in Hv.
  repeat case_decide; simplify_eq/=; repeat constructor; lia.
Qed.

Lemma demo_space_exclusive : indices_exclusive demo_space.
Proof.
  intros n1 n2 v1 v2 Hv1 Hv2. simpl in Hv1, Hv2.
  repeat case_decide; simplify_eq/=;
    (split;
     [repeat constructor; rewrite ?elem_of_cons, ?elem_of_nil; lia
     |intros Hne c; rewrite ?elem_of_cons, ?elem_of_nil; (done || lia)]).
Qed.

Lemma demo_space_aligned : encoding_aligned demo_space.
Proof.
  intros name v q l Hv Hl. simpl in Hv.
  by repeat case_decide; simplify_eq/=.
Qed.

Lemma toy_read_only : read_only_collaborators.
Proof.
  split; [|split; [done|]].
  - intros name b. simpl. unfold toy_choose_optimizer. by case_bool_decide.
  - intros c m. simpl. unfold toy_apply. by destruct (arg_f c).
Qed.

(** C1 on the unit square: the five anchors give the values 1/2, 1/2,
    1/8, 1/8 and 9/32; the pair of the third anchor is returned, not the
    equally good pair of the fourth. *)
Lemma optimize_returns_first_minimum_witness :
  anchor_points_phase (Some toy_f) None None None (toy_start None)
    = (inr toy_anchors, toy_after_anchors None None)
  ∧ optimized_points_phase (Some toy_f) None toy_anchors (toy_after_anchors None None)
    = (inr (toy_pair <$> toy_anchors), toy_after_anchors None None)
  ∧ toy_pair <$> toy_anchors ≠ []
  ∧ ∃ i x_min fx_min h',
      optimize (Some toy_f) None None None (toy_start None)
        = (inr (x_min, fx_min), h')
      ∧ i < length toy_anchors
      ∧ (toy_pair <$> toy_anchors) !! i = Some (x_min, fx_min)
      ∧ (Forall (λ p, np.isnan p.2 = false) (toy_pair <$> toy_anchors) →
           (∀ j p, (toy_pair <$> toy_anchors) !! j = Some p →
              np.less_equal fx_min p.2)
           ∧ (∀ j p, (toy_pair <$> toy_anchors) !! j = Some p →
                np.equal p.2 fx_min → i ≤ j))
      ∧ (∀ j p, (toy_pair <$> toy_anchors) !! j = Some p →
           np.isnan p.2 = true → np.isnan fx_min = true ∧ i ≤ j).
Proof.
  assert (anchor_points_phase (Some toy_f) None None None (toy_start None)
          = (inr toy_anchors, toy_after_anchors None None)) as Ha
    by (vm_compute; reflexivity).
  assert (optimized_points_phase (Some toy_f) None toy_anchors
            (toy_after_anchors None None)
          = (inr (toy_pair <$> toy_anchors), toy_after_anchors None None)) as Hp
    by (vm_compute; reflexivity).
  assert (toy_pair <$> toy_anchors ≠ []) as Hne by (vm_compute; discriminate).
  split; [exact Ha|]. split; [exact Hp|]. split; [exact Hne|].
  exact (optimize_returns_first_minimum _ _ _ _ _ _ _ _ _ Ha Hp Hne).
Defined.

Example first_minimum_example :
  (optimize (Some toy_f) None None None (toy_start None)).1
  = inr ([1#4; 1#4]%Q, toy_f [1#4; 1#4]%Q)
  ∧ np.equal (toy_f [3#4; 3#4]) (toy_f [1#4; 1#4])
  ∧ Forall (λ p, np.isnan p.2 = false) (toy_pair <$> toy_anchors).
Proof.
  split; [by vm_compute|]. split; [split; by vm_compute|].
  apply Forall_forall. intros p Hp.
  by repeat (apply elem_of_cons in Hp as [->|Hp]); [..|apply elem_of_nil in Hp].
Qed.

(** C1 as stated fails on the unit square when the objective is
    undefined at the corner [(1, 1)]: the runs give the values 1/2, NaN,
    1/8, 1/8 and 9/32, the pair of the second anchor is returned, and
    its value is not at most the 1/8 of the third. *)
Lemma optimize_returns_nan_pair :
  (anchor_points_phase (Some nan_f) None None None (toy_start None)).1
    = inr toy_anchors
  ∧ (optimized_points_phase (Some nan_f) None toy_anchors
       (anchor_points_phase (Some nan_f) None None None (toy_start None)).2).1
    = inr ((λ a, (a, nan_f a)) <$> toy_anchors)
  ∧ nan_f <$> toy_anchors
    = [toy_f [0; 0]%Q; NaN; toy_f [1#4; 1#4]%Q; toy_f [3#4; 3#4]%Q;
       toy_f [1#8; 1#8]%Q]
  ∧ np.equal (toy_f [1#4; 1#4]%Q) (Num (1#8))
  ∧ (optimize (Some nan_f) None None None (toy_start None)).1
    = inr ([1; 1]%Q, NaN)
  ∧ ¬ np.less_equal NaN (toy_f [1#4; 1#4]%Q).
Proof.
  split; [by vm_compute|]. split; [by vm_compute|].
  split; [by vm_compute|]. split; [split; by vm_compute|].
  split; [by vm_compute|].
  unfold less_equal. simpl. discriminate.
Qed.

(** C2 on the unit square: the duplicate manager knows all five
    candidates and no [x_opt] is given. *)
Lemma optimize_no_anchor_points_witness :
  anchor_points_phase (Some toy_f) None None None (toy_start (Some toy_anchors))
    = (inr [], (anchor_points_phase (Some toy_f) None None None
                  (toy_start (Some toy_anchors))).2)
  ∧ optimize (Some toy_f) None None None (toy_start (Some toy_anchors))
    = (inl ValueError, (anchor_points_phase (Some toy_f) None None None
                          (toy_start (Some toy_anchors))).2).
Proof.
  assert (anchor_points_phase (Some toy_f) None None None
            (toy_start (Some toy_anchors))
          = (inr [], (anchor_points_phase (Some toy_f) None None None
                        (toy_start (Some toy_anchors))).2)) as Ha
    by (vm_compute; reflexivity).
  split; [exact Ha|].
  exact (optimize_no_anchor_points _ _ _ _ _ _ Ha).
Defined.

(** C2 as stated fails there: the generator returns no anchor point and
    the exception is not a [NoAnchorPointsError]. *)
Lemma no_anchor_points_error_is_unnamed :
  (anchor_points_phase (Some toy_f) None None None
     (toy_start (Some toy_anchors))).1 = inr []
  ∧ (optimize (Some toy_f) None None None (toy_start (Some toy_anchors))).1
    ≠ inl (Exn "NoAnchorPointsError").
Proof. split; [by vm_compute|]. vm_compute. discriminate. Qed.

(** C3 as stated fails on the unit square: with [df = toy_df] supplied,
    the runs do not produce what they would had each received [toy_df]
    (one gradient step from every anchor). *)
Lemma apply_optimizer_not_given_df :
  anchor_points_phase (Some toy_f) (Some toy_df) None None (toy_start None)
    = (inr toy_anchors, toy_after_anchors (Some toy_df) None)
  ∧ (optimized_points_phase (Some toy_f) None toy_anchors
       (toy_after_anchors (Some toy_df) None)).1
    = inr (toy_pair <$> toy_anchors)
  ∧ (optimized_points_phase (Some toy_f) None toy_anchors
       (toy_after_anchors (Some toy_df) None)).1
    ≠ (optimized_points_phase_spec (Some toy_f) (Some toy_df) None toy_anchors
         (toy_after_anchors (Some toy_df) None)).1.
Proof.
  split; [by vm_compute|]. split; [by vm_compute|].
  vm_compute. discriminate.
Qed.


Example spec_win_cnt_increment_example :
  spec_win_cnt (this (toy_start None)) = 0%Z
  ∧ spec_win_cnt
      (this (optimize (Some toy_f) None None (Some half_half)
               (toy_start None)).2) = 1%Z
  ∧ stdout (optimize (Some toy_f) None None (Some half_half)
              (toy_start None)).2 = ["specified anchors win 1"].
Proof. by vm_compute. Qed.

(** C9 on the unit square, with the toy collaborators as functions
    that only query the managers. *)
Lemma optimize_managers_read_only_witness :
  @optimize _ (as_collaborators toy_querying)
    (Some toy_f) (Some toy_df) None (Some half_half)
    (toy_start (Some [half_half]))
  = ((@optimize _ (as_collaborators toy_querying)
        (Some toy_f) (Some toy_df) None (Some half_half)
        (toy_start (Some [half_half]))).1,
     (@optimize _ (as_collaborators toy_querying)
        (Some toy_f) (Some toy_df) None (Some half_half)
        (toy_start (Some [half_half]))).2)
  ∧ context_manager
      (this (@optimize _ (as_collaborators toy_querying)
               (Some toy_f) (Some toy_df) None (Some half_half)
               (toy_start (Some [half_half]))).2)
    = context_manager (this (toy_start (Some [half_half])))
  ∧ duplicate_manager
      (@optimize _ (as_collaborators toy_querying)
         (Some toy_f) (Some toy_df) None (Some half_half)
         (toy_start (Some [half_half]))).2
    = duplicate_manager (toy_start (Some [half_half])).
Proof.
  split; [apply surjective_pairing|].
  exact (optimize_managers_read_only toy_querying _ _ _ _ _ _ _
           (surjective_pairing _)).
Defined.

Example managers_read_only_run_example :
  (@optimize _ (as_collaborators toy_querying)
     (Some toy_f) (Some toy_df) None (Some half_half)
     (toy_start (Some [half_half]))).1
  = inr (half_half, toy_f half_half).
Proof. by vm_compute. Qed.

(** C10 on the unit square with the logic "foo". *)
Lemma optimize_unknown_anchor_points_logic_witness :
  unknown_logic_kwargs !! "type_anchor_points_logic" = Some (PyStr "foo")
  ∧ "foo" ≠ "max_objective"
  ∧ "foo" ≠ "thompson_sampling"
  ∧ ∃ s, __init__ unit_square None unknown_logic_kwargs = inr s
      ∧ type_anchor_points_logic s = PyStr "foo"
      ∧ ∀ h f df f_df x_opt,
          type_anchor_points_logic (this h) = PyStr "foo" →
          ∃ e h', optimize f df f_df x_opt h = (inl e, h')
            ∧ type_anchor_points_logic (this h') = PyStr "foo"
            ∧ match (choose_optimizer (optimizer_name (this h))
                       (ContextManager.noncontext_bounds (context_manager (this h)))).1
              with
              | inr _ => e = UnboundLocalError
              | inl e0 => e = e0
              end.
Proof.
  assert (unknown_logic_kwargs !! "type_anchor_points_logic"
          = Some (PyStr "foo")) as Hkw by (vm_compute; reflexivity).
  assert ("foo" ≠ "max_objective") as Hmax by discriminate.
  assert ("foo" ≠ "thompson_sampling") as Hthompson by discriminate.
  split; [exact Hkw|]. split; [exact Hmax|]. split; [exact Hthompson|].
  exact (optimize_unknown_anchor_points_logic unit_square None
           unknown_logic_kwargs "foo" Hkw Hmax Hthompson).
Defined.

Example unknown_logic_run_example :
  (s ← __init__ unit_square None unknown_logic_kwargs;
   mret (optimize (Some toy_f) None None None (Heap s None [])).1)
  = inr (inl UnboundLocalError).
Proof. by vm_compute. Qed.

(** C5 on [demo_space] and a single row. *)
Lemma no_context_expand_identity_witness :
  well_shaped (atleast_2d (Vector [7; 8; 9]%Q))
  ∧ shape1 (atleast_2d (Vector [7; 8; 9]%Q)) = model_dimensionality demo_space
  ∧ ∃ cm, ContextManager.__init__ demo_space None = inr cm
      ∧ ContextManager.noncontext_bounds cm = get_bounds demo_space
      ∧ ContextManager.all_index cm = seq 0 (model_dimensionality demo_space)
      ∧ ContextManager.noncontext_index cm = ContextManager.all_index cm
      ∧ ContextManager.context_index cm = []
      ∧ ContextManager.context_value cm = []
      ∧ ContextManager._expand_vector cm (Vector [7; 8; 9]%Q)
        = inr (atleast_2d (Vector [7; 8; 9]%Q)).
Proof.
  split; [apply well_shaped_atleast_2d_vector|]. split; [reflexivity|].
  exact (no_context_expand_identity demo_space (Vector [7; 8; 9]%Q)
           (well_shaped_atleast_2d_vector _) eq_refl).
Defined.

Lemma demo_context_known k :
  k ∈ keys [("b", 3%Q)] → ∃ v, find_variable demo_space k = inr v.
Proof. intros ->%list_elem_of_singleton. by eexists. Qed.

Lemma demo_context_encodable : context_encodable demo_space [("b", 3%Q)].
Proof.
  intros k v q Hv Hq. simpl in Hv.
  repeat case_decide; simplify_eq/=; eauto.
Qed.

(** C6 on [demo_space] with "b" fixed. *)
Lemma context_index_partition_witness :
  bounds_cover demo_space
  ∧ indices_in_range demo_space
  ∧ (∀ k, k ∈ keys [("b", 3%Q)] → ∃ v, find_variable demo_space k = inr v)
  ∧ context_encodable demo_space [("b", 3%Q)]
  ∧ ContextManager.__init__ demo_space (Some [("b", 3%Q)]) = inr demo_manager
  ∧ (context_encodable demo_space [("b", 3%Q)] →
     ∃ cm, ContextManager.__init__ demo_space (Some [("b", 3%Q)]) = inr cm)
  ∧ ∀ cm, ContextManager.__init__ demo_space (Some [("b", 3%Q)]) = inr cm →
      ContextManager.all_index cm = seq 0 (model_dimensionality demo_space)
      ∧ (∀ i, i ∈ ContextManager.all_index cm
              ↔ i ∈ ContextManager.context_index cm
                ∨ i ∈ ContextManager.noncontext_index cm)
      ∧ (∀ i, i ∈ ContextManager.context_index cm →
              i ∉ ContextManager.noncontext_index cm)
      ∧ sublist (ContextManager.noncontext_index cm) (ContextManager.all_index cm)
      ∧ NoDup (ContextManager.noncontext_index cm).
Proof.
  split; [reflexivity|]. split; [exact demo_space_in_range|].
  split; [exact demo_context_known|].
  split; [exact demo_context_encodable|]. split; [reflexivity|].
  exact (context_index_partition demo_space [("b", 3%Q)] eq_refl
           demo_space_in_range demo_context_known).
Defined.

Lemma demo_context_distinct : distinct_keys (Some [("b", 3%Q)]).
Proof. apply NoDup_singleton. Qed.

(** C7 on [demo_manager]: the row [7; 8] becomes [7; 8; 3]. *)
Lemma expand_vector_columns_witness :
  indices_in_range demo_space
  ∧ indices_exclusive demo_space
  ∧ encoding_aligned demo_space
  ∧ distinct_keys (Some [("b", 3%Q)])
  ∧ ContextManager.__init__ demo_space (Some [("b", 3%Q)]) = inr demo_manager
  ∧ well_shaped (atleast_2d (Vector [7; 8]%Q))
  ∧ shape1 (atleast_2d (Vector [7; 8]%Q))
    = length (ContextManager.noncontext_index demo_manager)
  ∧ ∃ y, ContextManager._expand_vector demo_manager (Vector [7; 8]%Q) = inr y
      ∧ well_shaped y
      ∧ shape0 y = shape0 (atleast_2d (Vector [7; 8]%Q))
      ∧ shape1 y = model_dimensionality demo_space
      ∧ (∀ i k c, i < shape0 y →
           ContextManager.noncontext_index demo_manager !! k = Some c →
           is_Some (entry y i c)
           ∧ entry y i c = entry (atleast_2d (Vector [7; 8]%Q)) i k)
      ∧ (∀ i k c, i < shape0 y →
           ContextManager.context_index demo_manager !! k = Some c →
           is_Some (entry y i c)
           ∧ entry y i c = ContextManager.context_value demo_manager !! k)
      ∧ ContextManager.noncontext_index demo_manager
        ++ ContextManager.context_index demo_manager
        ≡ₚ seq 0 (model_dimensionality demo_space).
Proof.
  split; [exact demo_space_in_range|]. split; [exact demo_space_exclusive|].
  split; [exact demo_space_aligned|]. split; [exact demo_context_distinct|].
  split; [reflexivity|].
  split; [apply well_shaped_atleast_2d_vector|]. split; [reflexivity|].
  exact (expand_vector_columns demo_space (Some [("b", 3%Q)]) demo_manager
           (Vector [7; 8]%Q) demo_space_in_range demo_space_exclusive
           demo_space_aligned demo_context_distinct eq_refl
           (well_shaped_atleast_2d_vector _) eq_refl).
Defined.

Example expand_vector_demo :
  ContextManager._expand_vector demo_manager (Vector [7; 8]%Q)
  = inr (NdArray 1 3 [[7; 8; 3]%Q]).
Proof. reflexivity. Qed.

(** C8 on [demo_manager]. *)
Lemma expand_vector_round_trip_witness :
  indices_in_range demo_space
  ∧ encoding_aligned demo_space
  ∧ ContextManager.__init__ demo_space (Some [("b", 3%Q)]) = inr demo_manager
  ∧ well_shaped (atleast_2d (Vector [7; 8]%Q))
  ∧ shape1 (atleast_2d (Vector [7; 8]%Q))
    = length (ContextManager.noncontext_index demo_manager)
  ∧ ∃ y, ContextManager._expand_vector demo_manager (Vector [7; 8]%Q) = inr y
      ∧ getitem_columns y (ContextManager.noncontext_index demo_manager)
        = inr (atleast_2d (Vector [7; 8]%Q))
      ∧ ContextManager._expand_vector demo_manager
          (Matrix (atleast_2d (Vector [7; 8]%Q))) = inr y.
Proof.
  split; [exact demo_space_in_range|]. split; [exact demo_space_aligned|].
  split; [reflexivity|].
  split; [apply well_shaped_atleast_2d_vector|]. split; [reflexivity|].
  exact (expand_vector_round_trip demo_space (Some [("b", 3%Q)]) demo_manager
           (Vector [7; 8]%Q) demo_space_in_range demo_space_aligned eq_refl
           (well_shaped_atleast_2d_vector _) eq_refl).
Defined.

End examples.

(** * Further properties of the context manager *)

Section context_manager_construction.
Import np ContextManager.

Lemma update_context_app sp (context : dict) ks1 : ∀ ks2 a,
  update_context sp context (ks1 ++ ks2) a
  = update_context sp context ks1 a ≫= update_context sp context ks2.
Proof.
  induction ks1 as [|k ks1 IH]; intros ks2 [[ci cio] cv]; [done|].
  simpl. destruct (find_variable sp k) as [e|v]; [done|]; simpl.
  destruct (dict_get context k) as [e|q]; [done|]; simpl.
  destruct (objective_to_model v q) as [e|l]; [done|]; simpl. apply IH.
Qed.

(** Every index the loop collects comes from a variable named by a key. *)
Lemma update_context_members sp (context : dict) ks : ∀ ci cio cv ci' cio' cv',
  update_context sp context ks (ci, cio, cv) = inr (ci', cio', cv') →
  (∀ c, c ∈ ci' → c ∈ ci ∨ ∃ k v, k ∈ ks ∧ find_variable sp k = inr v
                                   ∧ c ∈ index_in_model v)
  ∧ (∀ c, c ∈ cio' → c ∈ cio ∨ ∃ k v, k ∈ ks ∧ find_variable sp k = inr v
                                       ∧ c ∈ index_in_objective v).
Proof.
  induction ks as [|k ks IH]; intros ci cio cv ci' cio' cv' Hrun;
    simpl in Hrun; [simplify_eq; auto|].
  apply rbind_inr in Hrun as (v & Hv & Hrun).
  apply rbind_inr in Hrun as (q & Hq & Hrun).
  apply rbind_inr in Hrun as (l & Hl & Hrun).
  destruct (IH _ _ _ _ _ _ Hrun) as [Hm Ho]. split.
  - intros c Hc. destruct (Hm c Hc) as [[?|?]%elem_of_app|(k' & v' & ? & ? & ?)].
    + by left.
    + right. exists k, v. split; [by left|done].
    + right. exists k', v'. split; [by right|done].
  - intros c Hc. destruct (Ho c Hc) as [[?|?]%elem_of_app|(k' & v' & ? & ? & ?)].
    + by left.
    + right. exists k, v. split; [by left|done].
    + right. exists k', v'. split; [by right|done].
Qed.

Lemma dict_get_distinct (d : dict) k q :
  NoDup (keys d) → (k, q) ∈ d → dict_get d k = inr q.
Proof.
  induction d as [|[k' q'] d IH]; simpl; [by intros _ ?%elem_of_nil|].
  intros [Hk Hd]%NoDup_cons [[= -> ->]|Hin]%elem_of_cons.
  - by rewrite decide_True.
  - rewrite decide_False; [auto|].
    intros ->. apply Hk. apply list_elem_of_fmap. by exists (k, q).
Qed.

(** The loop in closed form: when it completes, every value was
    encoded, and the accumulators have grown by the concatenation, in
    key order, of what each variable contributes. *)
Lemma update_context_concat sp (context : dict) (todo : dict) :
  ∀ vars ci cio cv a',
  (∀ k q, (k, q) ∈ todo → dict_get context k = inr q) →
  Forall2 (λ k v, find_variable sp k = inr v) (keys todo) vars →
  update_context sp context (keys todo) (ci, cio, cv) = inr a' →
  ∃ encoded,
    zip_with objective_to_model vars todo.*2 = inr <$> encoded
    ∧ a' = (ci ++ concat (index_in_model <$> vars),
            cio ++ concat (index_in_objective <$> vars),
            cv ++ concat encoded).
Proof.
  induction todo as [|[k q] todo IH]; intros vars ci cio cv a' Hget Hvars Hrun.
  { apply Forall2_nil_inv_l in Hvars as ->. simpl in Hrun.
    injection Hrun as <-. exists []. simpl. by rewrite !app_nil_r. }
  apply Forall2_cons_inv_l in Hvars as (v & vars' & Hv & Hvars & ->).
  simpl in Hv.
  change (keys ((k, q) :: todo)) with (k :: keys todo) in Hrun.
  change (((k, q) :: todo).*2) with (q :: todo.*2).
  cbn [update_context] in Hrun. rewrite Hv in Hrun.
  cbn [mbind result_bind] in Hrun.
  rewrite (Hget k q) in Hrun by (by left). cbn [mbind result_bind] in Hrun.
  apply rbind_inr in Hrun as (l & Hl & Hrun).
  apply IH with (vars := vars') in Hrun as (encoded & Henc & ->);
    [|intros; apply Hget; by right|done].
  exists (l :: encoded). simpl. rewrite Hl, Henc.
  by rewrite <- !app_assoc.
Qed.

(** All the fields of a manager built with a context. *)
Lemma init_context_all_fields sp context cm :
  __init__ sp (Some context) = inr cm →
  ∃ ci cio cv nb,
    update_context sp context (keys context) ([], [], []) = inr (ci, cio, cv)
    ∧ select_items (get_bounds sp)
        (filter (λ idx, idx ∉ ci) (seq 0 (model_dimensionality sp))) = inr nb
    ∧ cm = Build sp (seq 0 (model_dimensionality sp))
             (seq 0 (length (config_space_expanded sp))) ci cv cio
             (filter (λ idx, idx ∉ cio) (seq 0 (length (config_space_expanded sp))))
             nb (filter (λ idx, idx ∉ ci) (seq 0 (model_dimensionality sp))).
Proof.
  unfold __init__. intros Hinit.
  apply rbind_inr in Hinit as ([[ci cio] cv] & Hupd & Hinit).
  apply rbind_inr in Hinit as (nb & Hnb & Hinit).
  injection Hinit as <-. by exists ci, cio, cv, nb.
Qed.

Lemma select_items_spec {A} (l : list A) idxs : ∀ bs,
  select_items l idxs = inr bs →
  length bs = length idxs ∧ ∀ k c, idxs !! k = Some c → bs !! k = l !! c.
Proof.
  induction idxs as [|c idxs IH]; intros bs Hsel; simpl in Hsel.
  { by injection Hsel as <-. }
  destruct (l !! c) as [b|] eqn:Hb; [|done].
  apply rbind_inr in Hsel as (bs' & Hbs' & [= <-]).
  destruct (IH _ Hbs') as [Hlen Hlook]. split; [simpl; by f_equal|].
  intros [|k] c'; simpl; [by intros [= <-]|auto].
Qed.

Lemma select_items_out_of_range {A} (l : list A) idxs c :
  c ∈ idxs → length l ≤ c → select_items l idxs = inl IndexError.
Proof.
  induction idxs as [|c' idxs IH]; [by intros ?%elem_of_nil|].
  intros Hc Hlen. simpl.
  destruct (l !! c') as [b|] eqn:Hb; [|done].
  apply elem_of_cons in Hc as [->|Hc].
  - apply lookup_lt_Some in Hb. lia.
  - by rewrite IH.
Qed.

Lemma select_items_all {A} (l : list A) : ∀ pre,
  select_items (pre ++ l) (seq (length pre) (length l)) = inr l.
Proof.
  induction l as [|b l IH]; intros pre; [done|]. simpl.
  rewrite lookup_app_r, Nat.sub_diag by done. simpl.
  specialize (IH (pre ++ [b])).
  rewrite length_app, <- app_assoc in IH. simpl in IH.
  rewrite Nat.add_1_r in IH. by rewrite IH.
Qed.

Lemma filter_not_in_nil (l : list nat) : filter (λ idx, idx ∉ []) l = l.
Proof.
  induction l as [|c l IH]; [done|].
  rewrite filter_cons_True by apply not_elem_of_nil. by rewrite IH.
Qed.

(** X1. Construction fails with the exception raised for the first
    key, in iteration order, that the loop does not accept: the one
    [find_variable] raises when the space does not know the key, or the
    one [objective_to_model] raises when it refuses the key's value. *)
Theorem init_first_rejected_key sp (context : dict) pre k post e :
  keys context = pre ++ k :: post →
  (∀ k', k' ∈ pre → key_accepted sp context k') →
  find_variable sp k = inl e
  ∨ (∃ v q, find_variable sp k = inr v ∧ dict_get context k = inr q
            ∧ objective_to_model v q = inl e) →
  __init__ sp (Some context) = inl e.
Proof.
  intros Hkeys Hpre Hk. unfold __init__.
  rewrite Hkeys, update_context_app.
  destruct (update_context_accepted sp context pre ([], [], []))
    as [[[ci cio] cv] ->]; [done|].
  simpl. destruct Hk as [->|(v & q & -> & Hq & Hl)]; [done|].
  simpl. rewrite Hq. simpl. by rewrite Hl.
Qed.

(** X2. With the keys of the dict distinct and known to the space,
    every value of a built manager's context was encoded, and
    [context_index], [context_index_obj] and [context_value] are the
    concatenations, in key order, of the variables' model indices,
    objective indices and encoded values. *)
Theorem init_context_concatenation sp (context : dict) vars cm :
  NoDup (keys context) →
  Forall2 (λ k v, find_variable sp k = inr v) (keys context) vars →
  __init__ sp (Some context) = inr cm →
  context_index cm = concat (index_in_model <$> vars)
  ∧ context_index_obj cm = concat (index_in_objective <$> vars)
  ∧ ∃ encoded,
      zip_with objective_to_model vars context.*2 = inr <$> encoded
      ∧ context_value cm = concat encoded.
Proof.
  intros Hnd Hvars Hinit.
  destruct (init_context_all_fields _ _ _ Hinit)
    as (ci & cio & cv & nb & Hupd & _ & ->). simpl.
  destruct (update_context_concat sp context context vars [] [] [] _
              (λ k q, dict_get_distinct context k q Hnd) Hvars Hupd)
    as (encoded & Henc & [= -> -> ->]).
  split; [done|]. split; [done|]. by exists encoded.
Qed.

(** X3. [noncontext_bounds] has one entry per non-context index, entry
    [k] being the bound of model dimension [noncontext_index[k]]. *)
Theorem init_bounds_follow_index sp context cm :
  bounds_cover sp →
  __init__ sp context = inr cm →
  length (noncontext_bounds cm) = length (noncontext_index cm)
  ∧ ∀ k c, noncontext_index cm !! k = Some c →
      is_Some (noncontext_bounds cm !! k)
      ∧ noncontext_bounds cm !! k = get_bounds sp !! c.
Proof.
  intros Hb Hinit. destruct context as [context|].
  - destruct (init_context_all_fields _ _ _ Hinit)
      as (ci & cio & cv & nb & _ & Hsel & ->). simpl.
    destruct (select_items_spec _ _ _ Hsel) as [Hlen Hlook].
    split; [done|]. intros k c Hk. split; [|auto].
    apply lookup_lt_is_Some. rewrite Hlen. by eapply lookup_lt_Some.
  - injection Hinit as <-. simpl. rewrite length_seq. split; [done|].
    intros k c Hk. apply lookup_seq in Hk as [-> Hk]. simpl.
    split; [|done]. apply lookup_lt_is_Some. by rewrite Hb.
Qed.

(** X4. An empty dict is as good as no context: on a space with one
    bound per model dimension, [ContextManager(space, {})] builds the
    manager that [ContextManager(space)] builds. *)
Theorem init_empty_context sp :
  bounds_cover sp →
  __init__ sp (Some []) = __init__ sp None.
Proof.
  intros Hb. unfold __init__. simpl.
  rewrite !filter_not_in_nil. rewrite <- Hb.
  pose proof (select_items_all (get_bounds sp) []) as Hall.
  simpl in Hall. by rewrite Hall.
Qed.

(** X5. With a context whose variables are known and whose values
    are encoded, a model dimension that is no context index and has no
    bound makes construction fail with [IndexError]. *)
Theorem init_missing_bound sp (context : dict) c :
  (∀ k, k ∈ keys context → ∃ v, find_variable sp k = inr v) →
  context_encodable sp context →
  (∀ k v, k ∈ keys context → find_variable sp k = inr v →
          c ∉ index_in_model v) →
  length (get_bounds sp) ≤ c < model_dimensionality sp →
  __init__ sp (Some context) = inl IndexError.
Proof.
  intros Hknown Henc Hfree [Hlen Hc]. unfold __init__.
  destruct (update_context_found sp context (keys context) ([], [], []))
    as [[[ci cio] cv] Hupd]; [done..|].
  rewrite Hupd. simpl.
  rewrite (select_items_out_of_range _ _ c); [done| |done].
  apply list_elem_of_filter. split; [|apply elem_of_seq; lia].
  intros Hin.
  destruct (update_context_members _ _ _ _ _ _ _ _ _ Hupd) as [Hm _].
  destruct (Hm c Hin) as [?%elem_of_nil|(k & v & Hk & Hv & Hcv)]; [done|].
  by apply (Hfree k v).
Qed.

(** X6. The objective-space index lists partition the positions of
    [config_space_expanded]: a position is in [all_index_obj] exactly
    when it is in [context_index_obj] or in [nocontext_index_obj], never
    in both, and [nocontext_index_obj] keeps the order of
    [all_index_obj]. *)
Theorem objective_index_partition sp (context : dict) cm :
  objective_indices_in_range sp →
  __init__ sp (Some context) = inr cm →
  all_index_obj cm = seq 0 (length (config_space_expanded sp))
  ∧ (∀ i, i ∈ all_index_obj cm
          ↔ i ∈ context_index_obj cm ∨ i ∈ nocontext_index_obj cm)
  ∧ (∀ i, i ∈ context_index_obj cm → i ∉ nocontext_index_obj cm)
  ∧ sublist (nocontext_index_obj cm) (all_index_obj cm).
Proof.
  intros Hrange Hinit.
  destruct (init_context_all_fields _ _ _ Hinit)
    as (ci & cio & cv & nb & Hupd & _ & ->). simpl.
  split; [done|]. split; [|split].
  - intros i. rewrite list_elem_of_filter, elem_of_seq. split.
    + intros Hi. destruct (decide (i ∈ cio)); [by left|by right].
    + intros [Hi|[_ Hi]]; [|done].
      destruct (update_context_members _ _ _ _ _ _ _ _ _ Hupd) as [_ Ho].
      destruct (Ho i Hi) as [?%elem_of_nil|(k & v & _ & Hv & Hiv)]; [done|].
      specialize (Hrange k v Hv). rewrite Forall_forall in Hrange.
      specialize (Hrange i Hiv). lia.
  - by intros i Hi [Hi' _]%list_elem_of_filter.
  - apply sublist_filter.
Qed.

End context_manager_construction.

(** * Further properties of [_expand_vector] *)

Section expand_vector_behaviour.
Import np ContextManager.

Lemma setitem_columns_inv a idx v y :
  setitem_columns a idx v = inr y →
  (shape0 v = shape0 a ∨ shape0 v = 1)
  ∧ (shape1 v = length idx ∨ shape1 v = 1)
  ∧ Forall (λ c, c < shape1 a) idx
  ∧ y = NdArray (shape0 a) (shape1 a)
          (imap (λ i row, assign_cols 0 idx (broadcast_entry v i) row) (rows a)).
Proof.
  unfold setitem_columns.
  case_bool_decide as Hshape; simpl; [|done].
  case_bool_decide as Hidx; simpl; [|done].
  intros [= <-]. by destruct Hshape.
Qed.

Lemma setitem_columns_returns a idx v :
  (shape0 v = shape0 a ∨ shape0 v = 1) →
  (shape1 v = length idx ∨ shape1 v = 1) →
  Forall (λ c, c < shape1 a) idx →
  setitem_columns a idx v
  = inr (NdArray (shape0 a) (shape1 a)
           (imap (λ i row, assign_cols 0 idx (broadcast_entry v i) row) (rows a))).
Proof.
  intros H0 H1 Hidx. unfold setitem_columns.
  rewrite (bool_decide_eq_true_2 _ (conj H0 H1)); simpl.
  by rewrite (bool_decide_eq_true_2 _ Hidx).
Qed.

Lemma setitem_columns_value_error a idx v :
  shape1 v ≠ length idx → shape1 v ≠ 1 →
  setitem_columns a idx v = inl ValueError.
Proof.
  intros Hw H1. unfold setitem_columns.
  rewrite bool_decide_eq_false_2; [done|]. intros [_ [?|?]]; done.
Qed.

Lemma setitem_columns_index_error a idx v c :
  (shape0 v = shape0 a ∨ shape0 v = 1) →
  (shape1 v = length idx ∨ shape1 v = 1) →
  c ∈ idx → shape1 a ≤ c →
  setitem_columns a idx v = inl IndexError.
Proof.
  intros H0 H1 Hc Hlen. unfold setitem_columns.
  rewrite (bool_decide_eq_true_2 _ (conj H0 H1)); simpl.
  rewrite bool_decide_eq_false_2; [done|].
  rewrite Forall_forall. intros Hall. specialize (Hall c Hc). lia.
Qed.

Lemma assign_cols_ext idx : ∀ j val val' row,
  (∀ k, val k = val' k) →
  assign_cols j idx val row = assign_cols j idx val' row.
Proof.
  induction idx as [|c idx IH]; intros j val val' row Hval; simpl; [done|].
  rewrite (Hval j). by apply IH.
Qed.

(** A value with a single column lends that column to every position. *)
Lemma broadcast_entry_column v i k :
  well_shaped v → i < shape0 v → shape1 v = 1 →
  entry v i 0 = Some (broadcast_entry v i k).
Proof.
  intros Hv Hi H1.
  rewrite (broadcast_entry_exact v i 0 Hv Hi) by lia.
  unfold broadcast_entry.
  by rewrite !(decide_True (P := shape1 v = 1)) by done.
Qed.

(** What construction guarantees without looking at the space. *)
Lemma init_noncontext_index_range sp context cm :
  __init__ sp context = inr cm →
  space cm = sp
  ∧ NoDup (noncontext_index cm)
  ∧ Forall (λ c, c < model_dimensionality sp) (noncontext_index cm)
  ∧ ∀ c, c ∈ context_index cm → c ∉ noncontext_index cm.
Proof.
  intros Hinit. destruct context as [context|].
  - destruct (init_context_all_fields _ _ _ Hinit)
      as (ci & cio & cv & nb & _ & _ & ->). simpl.
    split; [done|]. split; [apply NoDup_filter, NoDup_seq|]. split.
    + apply Forall_forall. intros c [_ Hc%elem_of_seq]%list_elem_of_filter. lia.
    + by intros c Hc [Hc' _]%list_elem_of_filter.
  - injection Hinit as <-. simpl.
    split; [done|]. split; [apply NoDup_seq|]. split.
    + apply Forall_forall. intros c Hc%elem_of_seq. lia.
    + by intros c ?%elem_of_nil.
Qed.

(** X7. On a manager as the constructor builds it, an input whose
    width is neither the number of non-context indices nor 1 is refused
    with [ValueError]. *)
Theorem expand_vector_wrong_width sp context cm x :
  __init__ sp context = inr cm →
  shape1 (atleast_2d x) ≠ length (noncontext_index cm) →
  shape1 (atleast_2d x) ≠ 1 →
  _expand_vector cm x = inl ValueError.
Proof.
  intros _ Hw H1. unfold _expand_vector.
  by rewrite (setitem_columns_value_error _ _ _ Hw H1).
Qed.

(** X8. When the context indices are model dimensions but the context
    value has neither one entry per context index nor a single entry,
    [_expand_vector] fails with [ValueError] on every input of acceptable
    width. *)
Theorem expand_vector_misaligned_context sp context cm x :
  __init__ sp context = inr cm →
  shape1 (atleast_2d x) = length (noncontext_index cm)
  ∨ shape1 (atleast_2d x) = 1 →
  Forall (λ c, c < model_dimensionality sp) (context_index cm) →
  length (context_value cm) ≠ length (context_index cm) →
  length (context_value cm) ≠ 1 →
  _expand_vector cm x = inl ValueError.
Proof.
  intros Hinit Hw _ Hcv Hcv1. unfold _expand_vector.
  destruct (init_noncontext_index_range _ _ _ Hinit) as (-> & _ & Hr & _).
  rewrite setitem_columns_returns; [|by left|done|done].
  by apply setitem_columns_value_error.
Qed.

(** X9. A context index that is no model dimension makes
    [_expand_vector] fail with [IndexError] on every input of acceptable
    width, once the context value is aligned. *)
Theorem expand_vector_context_index_out_of_range sp context cm x c :
  __init__ sp context = inr cm →
  shape1 (atleast_2d x) = length (noncontext_index cm)
  ∨ shape1 (atleast_2d x) = 1 →
  length (context_value cm) = length (context_index cm)
  ∨ length (context_value cm) = 1 →
  c ∈ context_index cm →
  model_dimensionality sp ≤ c →
  _expand_vector cm x = inl IndexError.
Proof.
  intros Hinit Hw Hcv Hc Hlen. unfold _expand_vector.
  destruct (init_noncontext_index_range _ _ _ Hinit) as (-> & _ & Hr & _).
  rewrite setitem_columns_returns; [|by left|done|done].
  by apply (setitem_columns_index_error _ _ _ c); [by right|..].
Qed.

(** X10. Rows are expanded independently: row [i] of the expansion of
    a 2-D input is the expansion of row [i] alone. *)
Theorem expand_vector_row_by_row cm a y i r :
  well_shaped a →
  _expand_vector cm (Matrix a) = inr y →
  rows a !! i = Some r →
  ∃ yi, rows y !! i = Some yi
    ∧ _expand_vector cm (Vector r)
      = inr (NdArray 1 (model_dimensionality (space cm)) [yi]).
Proof.
  intros [Hlen Hrows] Hrun Hr. unfold _expand_vector in *. simpl in Hrun.
  apply rbind_inr in Hrun as (y1 & Hy1 & Hy).
  apply setitem_columns_inv in Hy1 as (_ & Hw & Hidx & ->).
  apply setitem_columns_inv in Hy as (_ & Hcw & Hcidx & ->).
  simpl in *.
  pose proof (lookup_lt_Some _ _ _ Hr) as Hi. rewrite Hlen in Hi.
  rewrite Forall_lookup in Hrows. pose proof (Hrows _ _ Hr) as Hrlen.
  eexists. split.
  { rewrite !list_lookup_imap, lookup_replicate_2 by done. reflexivity. }
  rewrite setitem_columns_returns; [|by left|simpl; by rewrite Hrlen|done].
  unfold mbind, result_bind.
  rewrite setitem_columns_returns; [|by right|done|done].
  simpl. do 3 f_equal.
  transitivity (assign_cols 0 (context_index cm)
                  (broadcast_entry (atleast_2d (Vector (context_value cm))) i)
                  (assign_cols 0 (noncontext_index cm)
                     (broadcast_entry (NdArray 1 (length r) [r]) 0)
                     (replicate (model_dimensionality (space cm)) 0%Q))).
  - apply assign_cols_ext. intros k. by unfold broadcast_entry.
  - f_equal. apply assign_cols_ext. intros k. unfold broadcast_entry; simpl.
    rewrite Hrlen.
    replace (if decide (shape0 a = 1) then 0 else i) with i
      by (case_decide; lia).
    by rewrite Hr.
Qed.

(** X12. An input with a single column is accepted whatever the number
    of non-context indices, and that column fills every non-context
    column of the result. *)
Theorem expand_vector_broadcasts_column sp context cm x :
  indices_in_range sp →
  encoding_aligned sp →
  __init__ sp context = inr cm →
  well_shaped (atleast_2d x) →
  shape1 (atleast_2d x) = 1 →
  ∃ y, _expand_vector cm x = inr y
    ∧ shape0 y = shape0 (atleast_2d x)
    ∧ shape1 y = model_dimensionality sp
    ∧ ∀ i k c, i < shape0 y → noncontext_index cm !! k = Some c →
        is_Some (entry y i c) ∧ entry y i c = entry (atleast_2d x) i 0.
Proof.
  intros Hrange Halign Hinit Hx Hw.
  destruct (init_expandable _ _ _ Hrange Halign Hinit)
    as [Hnd Hnr Hcr Hap Hcv].
  destruct (init_noncontext_index_range _ _ _ Hinit) as (Hsp & _).
  rewrite Hsp in *. unfold _expand_vector.
  set (x2 := atleast_2d x) in *.
  destruct (setitem_columns_spec
              (zeros (shape0 x2) (model_dimensionality sp))
              (noncontext_index cm) x2)
    as (y1 & Hy1 & H10 & H11 & Hwy1 & _ & Hy1w);
    [apply well_shaped_zeros|by left|by right|done|].
  rewrite Hsp, Hy1. unfold mbind, result_bind.
  destruct (setitem_columns_spec y1 (context_index cm)
              (atleast_2d (Vector (context_value cm))))
    as (y & -> & H0 & H1 & Hy & Hyk & _);
    [done|by right|by left|by rewrite H11|].
  simpl in *. exists y.
  split; [done|]. split; [congruence|]. split; [congruence|].
  intros i k c Hi Hk.
  assert (entry y i c = entry x2 i 0) as Hent.
  { rewrite Hyk by (intros Hc; eapply Hap; [done|by eapply list_elem_of_lookup_2]).
    rewrite (Hy1w Hnd i k c) by (done || lia).
    symmetry. apply broadcast_entry_column; [done|lia|done]. }
  split; [|done]. rewrite Hent. apply entry_Some; [done|lia|lia].
Qed.

End expand_vector_behaviour.

(** * Further properties of [optimize] *)

Section optimize_behaviour.
Context `{Collaborators}.
Import AcquisitionOptimizer.

Lemma bookkeeping_output h h' :
  bookkeeping h' = bookkeeping h →
  spec_win_cnt (this h') = spec_win_cnt (this h) ∧ stdout h' = stdout h.
Proof. unfold bookkeeping. intros [= _ _ _ Hcnt _ _ Hout]. by split. Qed.

Lemma bind_raises {A B} (c : M A) (k : A → M B) h e h' :
  c h = (inl e, h') → (c ≫= k) h = (inl e, h').
Proof. intros Hc. unfold mbind, M_bind. by rewrite Hc. Qed.

Lemma bind_continues {A B} (c : M A) (k : A → M B) h a h1 :
  c h = (inr a, h1) → (c ≫= k) h = k a h1.
Proof. intros Hc. unfold mbind, M_bind. by rewrite Hc. Qed.

Lemma bind_raises_inv {A B} (c : M A) (k : A → M B) h e h' :
  (c ≫= k) h = (inl e, h') →
  c h = (inl e, h') ∨ ∃ a h1, c h = (inr a, h1) ∧ k a h1 = (inl e, h').
Proof.
  unfold mbind, M_bind. destruct (c h) as [[e'|a] h1].
  - intros [= -> ->]. by left.
  - intros Hrun. right. exists a, h1. split; [reflexivity|exact Hrun].
Qed.

(** A run that raises ends the comprehension there. *)
Lemma optimized_points_phase_fails_at f f_df a post e h2 pre : ∀ h0 pts h1,
  optimized_points_phase f f_df pre h0 = (inr pts, h1) →
  optimized_points_phase f f_df [a] h1 = (inl e, h2) →
  optimized_points_phase f f_df (pre ++ a :: post) h0 = (inl e, h2).
Proof.
  induction pre as [|a' pre IH]; intros h0 pts h1 Hpre Ha.
  - injection Hpre as <- <-. change ([] ++ a :: post) with (a :: post).
    rewrite optimized_points_phase_cons in Ha |- *.
    apply bind_raises_inv in Ha as [Ha|(p & h' & _ & Hk)].
    + by apply bind_raises.
    + by injection Hk.
  - change ((a' :: pre) ++ a :: post) with (a' :: (pre ++ a :: post)).
    rewrite optimized_points_phase_cons in Hpre |- *.
    apply bind_returns in Hpre as (p & h' & Hbody & Hpre).
    apply bind_returns in Hpre as (ps & h'' & Hrest & [= <- <-]).
    rewrite (bind_continues _ _ _ _ _ Hbody).
    apply bind_raises. eauto.
Qed.

(** The first two phases leave the counter and the output alone. *)
Lemma phases_keep_output f df f_df x_opt h r h0 anchors r' h1 :
  anchor_points_phase f df f_df x_opt h = (r, h0) →
  optimized_points_phase f f_df anchors h0 = (r', h1) →
  (spec_win_cnt (this h0) = spec_win_cnt (this h) ∧ stdout h0 = stdout h)
  ∧ (spec_win_cnt (this h1) = spec_win_cnt (this h) ∧ stdout h1 = stdout h).
Proof.
  intros H1 H2.
  apply anchor_points_phase_frame, bookkeeping_output in H1 as [Hc Ho].
  pose proof (f_equal fst (optimized_points_phase_frame _ _ _ _ _ _ H2)) as Hb.
  change (bookkeeping h1 = bookkeeping h0) in Hb.
  apply bookkeeping_output in Hb as [Hc' Ho']. split; [done|]. split; congruence.
Qed.

(** X13. Asking for Thompson sampling without giving a model is
    accepted by the constructor; every later call of [optimize] raises,
    with [AttributeError] (the missing [self.model]) as soon as
    [choose_optimizer] returns, and leaves the configuration as it was. *)
Theorem optimize_thompson_without_model sp optimizer_arg kwargs :
  kwargs !! "type_anchor_points_logic" = Some (PyStr "thompson_sampling") →
  kwargs !! "model" = None →
  ∃ s, __init__ sp optimizer_arg kwargs = inr s
    ∧ type_anchor_points_logic s = PyStr "thompson_sampling"
    ∧ model s = Absent
    ∧ ∀ h f df f_df x_opt,
        type_anchor_points_logic (this h) = PyStr "thompson_sampling" →
        model (this h) = Absent →
        ∃ e h', optimize f df f_df x_opt h = (inl e, h')
          ∧ type_anchor_points_logic (this h') = PyStr "thompson_sampling"
          ∧ model (this h') = Absent
          ∧ match (choose_optimizer (optimizer_name (this h))
                     (ContextManager.noncontext_bounds (context_manager (this h)))).1
            with
            | inr _ => e = AttributeError
            | inl e0 => e = e0
            end.
Proof.
  intros Hkw Hmodel. eexists. split; [|split; [|split]].
  - unfold __init__. simpl. rewrite Hkw, Hmodel. reflexivity.
  - done.
  - done.
  - intros h f df f_df x_opt Hlogic Hm.
    unfold optimize.
    repeat (rewrite assign_bind; cbn beta).
    unfold mbind at 1 2, M_bind at 1 2, self at 1, call_bounds at 1.
    cbn beta iota zeta. simpl optimizer_name. simpl context_manager.
    destruct (choose_optimizer _ _) as [[e0|opt] b].
    { eexists _, _. split; [reflexivity|]. by split. }
    rewrite assign_bind; cbn beta.
    unfold mbind at 1 2, M_bind at 1 2, self at 1.
    cbn beta iota zeta. simpl (type_anchor_points_logic _). rewrite Hlogic.
    simpl (model _). rewrite Hm.
    eexists _, _. split; [reflexivity|]. by split.
Qed.

(** X14. When [choose_optimizer] refuses the back end, [optimize]
    raises that exception at once: the three arguments have been stored,
    and nothing else changed beyond what [choose_optimizer] did to the
    bounds list it was handed. *)
Theorem optimize_choose_optimizer_fails f df f_df x_opt h e b :
  choose_optimizer (optimizer_name (this h))
    (ContextManager.noncontext_bounds (context_manager (this h))) = (inl e, b) →
  optimize f df f_df x_opt h
  = (inl e,
     Heap (with_context_manager
             (ContextManager.with_noncontext_bounds b (context_manager (this h)))
             (with_f_df f_df (with_df df (with_f f (this h)))))
          (duplicate_manager h) (stdout h)).
Proof.
  intros Hchoose. unfold optimize.
  repeat (rewrite assign_bind; cbn beta).
  unfold mbind at 1 2, M_bind at 1 2, self at 1, call_bounds at 1.
  cbn beta iota zeta. simpl optimizer_name. simpl context_manager.
  by rewrite Hchoose.
Qed.

(** X15. The runs happen in anchor order and the first one that raises
    ends the call with its exception: the heap is the one that run left,
    so no later anchor is run. *)
Theorem optimize_stops_at_failing_anchor f df f_df x_opt h pre a post h0 pts h1 e h2 :
  anchor_points_phase f df f_df x_opt h = (inr (pre ++ a :: post), h0) →
  optimized_points_phase f f_df pre h0 = (inr pts, h1) →
  optimized_points_phase f f_df [a] h1 = (inl e, h2) →
  optimize f df f_df x_opt h = (inl e, h2).
Proof.
  intros Hanchors Hpre Ha. rewrite optimize_phases.
  rewrite (bind_continues _ _ _ _ _ Hanchors).
  apply bind_raises. by eapply optimized_points_phase_fails_at.
Qed.

(** X16. A call that raises leaves [spec_win_cnt] as it was and prints
    nothing. *)
Theorem optimize_raise_keeps_counter f df f_df x_opt h e h' :
  optimize f df f_df x_opt h = (inl e, h') →
  spec_win_cnt (this h') = spec_win_cnt (this h) ∧ stdout h' = stdout h.
Proof.
  intros Hrun. rewrite optimize_phases in Hrun.
  apply bind_raises_inv in Hrun as [Hrun|(anchors & h0 & Hanchors & Hrun)].
  { by apply anchor_points_phase_frame, bookkeeping_output in Hrun. }
  apply bind_raises_inv in Hrun as [Hrun|(pts & h1 & Hpts & Hsel)].
  { by destruct (phases_keep_output _ _ _ _ _ _ _ _ _ _ Hanchors Hrun). }
  destruct (phases_keep_output _ _ _ _ _ _ _ _ _ _ Hanchors Hpts) as [_ Hkeep].
  destruct (decide (pts = [])) as [->|Hne].
  - rewrite selection_phase_empty in Hsel. by injection Hsel as _ <-.
  - destruct (selection_phase_nonempty pts h1 Hne) as (i & p & _ & _ & Hsel').
    by rewrite Hsel' in Hsel.
Qed.

(** X17. With at most five anchors the counter cannot move: whatever
    the outcome, [spec_win_cnt] is unchanged and nothing is printed. *)
Theorem optimize_few_anchors f df f_df x_opt h anchors h0 r h' :
  anchor_points_phase f df f_df x_opt h = (inr anchors, h0) →
  length anchors ≤ 5 →
  optimize f df f_df x_opt h = (r, h') →
  spec_win_cnt (this h') = spec_win_cnt (this h) ∧ stdout h' = stdout h.
Proof.
  intros Hanchors Hfew Hrun. rewrite optimize_phases in Hrun.
  rewrite (bind_continues _ _ _ _ _ Hanchors) in Hrun.
  destruct (optimized_points_phase f f_df anchors h0) as [[e|pts] h1] eqn:Hpts.
  { rewrite (bind_raises _ _ _ _ _ Hpts) in Hrun. injection Hrun as _ <-.
    by destruct (phases_keep_output _ _ _ _ _ _ _ _ _ _ Hanchors Hpts). }
  rewrite (bind_continues _ _ _ _ _ Hpts) in Hrun.
  destruct (phases_keep_output _ _ _ _ _ _ _ _ _ _ Hanchors Hpts) as [_ Hkeep].
  destruct (decide (pts = [])) as [->|Hne].
  - rewrite selection_phase_empty in Hrun. by injection Hrun as _ <-.
  - destruct (selection_phase_nonempty pts h1 Hne) as (i & p & _ & Hp & Hsel).
    rewrite Hsel in Hrun. injection Hrun as _ <-.
    apply lookup_lt_Some in Hp.
    rewrite (optimized_points_phase_length _ _ _ _ _ _ Hpts) in Hp.
    unfold after_selection. by rewrite bool_decide_eq_false_2 by lia.
Qed.

(** X18. A call that returns either leaves the counter and the output
    alone, or adds one to the counter and prints the line
    "specified anchors win N" with N the new count. *)
Theorem optimize_prints_new_count f df f_df x_opt h p h' :
  optimize f df f_df x_opt h = (inr p, h') →
  (spec_win_cnt (this h') = spec_win_cnt (this h) ∧ stdout h' = stdout h)
  ∨ (spec_win_cnt (this h') = (spec_win_cnt (this h) + 1)%Z
     ∧ stdout h'
       = stdout h ++ ["specified anchors win " +:+ pretty (spec_win_cnt (this h'))]).
Proof.
  intros Hrun. rewrite optimize_phases in Hrun.
  apply bind_returns in Hrun as (anchors & h0 & Hanchors & Hrun).
  apply bind_returns in Hrun as (pts & h1 & Hpts & Hsel).
  destruct (phases_keep_output _ _ _ _ _ _ _ _ _ _ Hanchors Hpts)
    as [_ [Hcnt Hout]].
  destruct (decide (pts = [])) as [->|Hne]; [done|].
  destruct (selection_phase_nonempty pts h1 Hne) as (i & q & _ & _ & Hsel').
  rewrite Hsel' in Hsel. injection Hsel as _ <-.
  unfold after_selection. case_bool_decide; simpl; [right|by left].
  by rewrite Hcnt, Hout.
Qed.

(** X19. Whatever the outcome, after a call [self.f], [self.df] and
    [self.f_df] hold the arguments of that call, and the configuration
    ([space], [optimizer_name], [kwargs], [model],
    [type_anchor_points_logic]) is the one before the call. *)
Theorem optimize_stores_arguments f df f_df x_opt h r h' :
  optimize f df f_df x_opt h = (r, h') →
  AcquisitionOptimizer.f (this h') = Attr f
  ∧ AcquisitionOptimizer.df (this h') = Attr df
  ∧ AcquisitionOptimizer.f_df (this h') = Attr f_df
  ∧ space (this h') = space (this h)
  ∧ optimizer_name (this h') = optimizer_name (this h)
  ∧ kwargs (this h') = kwargs (this h)
  ∧ model (this h') = model (this h)
  ∧ type_anchor_points_logic (this h') = type_anchor_points_logic (this h).
Proof.
  unfold optimize. repeat (rewrite assign_bind; cbn beta).
  match goal with
  | |- ?c ?h1 = _ → _ =>
      assert (keeps (λ h, (AcquisitionOptimizer.f (this h),
                           AcquisitionOptimizer.df (this h),
                           AcquisitionOptimizer.f_df (this h),
                           space (this h), optimizer_name (this h),
                           kwargs (this h), model (this h),
                           type_anchor_points_logic (this h))) c) as Hk by frame;
      intros Hrun; apply Hk in Hrun
  end.
  simpl in Hrun. by injection Hrun as -> -> -> -> -> -> -> ->.
Qed.

(** X20. With the logic "max_objective", once [choose_optimizer] has
    returned, the anchors are those of an [ObjectiveAnchorPointsGenerator]
    built from [self.space], the design type "random" and the argument
    [f], asked with the caller's [x_opt] and the two managers;
    [self.model] is not looked at. *)
Theorem anchor_points_max_objective f df f_df x_opt h opt b :
  type_anchor_points_logic (this h) = PyStr "max_objective" →
  choose_optimizer (optimizer_name (this h))
    (ContextManager.noncontext_bounds (context_manager (this h))) = (inr opt, b) →
  (anchor_points_phase f df f_df x_opt h).1
  = (anchor_points_get
       (ObjectiveAnchorPointsGenerator (space (this h)) random_design_type f)
       x_opt
       (Managers
          (ContextManager.with_noncontext_bounds b (context_manager (this h)))
          (duplicate_manager h))).1.
Proof.
  intros Hlogic Hchoose. unfold anchor_points_phase.
  repeat (rewrite assign_bind; cbn beta).
  unfold mbind at 1 2, M_bind at 1 2, self at 1, call_bounds at 1.
  cbn beta iota zeta. simpl optimizer_name. simpl context_manager.
  rewrite Hchoose. rewrite assign_bind; cbn beta.
  unfold mbind at 1 2, M_bind at 1 2, self at 1.
  cbn beta iota zeta. simpl (type_anchor_points_logic _). rewrite Hlogic.
  simpl. unfold call. simpl. by destruct (anchor_points_get _ _ _).
Qed.

(** X21. With the logic "thompson_sampling" and a model, once
    [choose_optimizer] has returned, the anchors are those of a
    [ThompsonSamplingAnchorPointsGenerator] built from [self.space], the
    design type "sobol" and [self.model], asked with the caller's [x_opt]
    and the two managers; the argument [f] is not given to it. *)
Theorem anchor_points_thompson_sampling f df f_df x_opt h opt b m :
  type_anchor_points_logic (this h) = PyStr "thompson_sampling" →
  model (this h) = Attr m →
  choose_optimizer (optimizer_name (this h))
    (ContextManager.noncontext_bounds (context_manager (this h))) = (inr opt, b) →
  (anchor_points_phase f df f_df x_opt h).1
  = (anchor_points_get
       (ThompsonSamplingAnchorPointsGenerator (space (this h))
          sobol_design_type m)
       x_opt
       (Managers
          (ContextManager.with_noncontext_bounds b (context_manager (this h)))
          (duplicate_manager h))).1.
Proof.
  intros Hlogic Hmodel Hchoose. unfold anchor_points_phase.
  repeat (rewrite assign_bind; cbn beta).
  unfold mbind at 1 2, M_bind at 1 2, self at 1, call_bounds at 1.
  cbn beta iota zeta. simpl optimizer_name. simpl context_manager.
  rewrite Hchoose. rewrite assign_bind; cbn beta.
  unfold mbind at 1 2, M_bind at 1 2, self at 1.
  cbn beta iota zeta. simpl (type_anchor_points_logic _). rewrite Hlogic.
  simpl (model _). rewrite Hmodel.
  simpl. unfold call. simpl. by destruct (anchor_points_get _ _ _).
Qed.

(** X22. [optimize] writes neither manager itself: whatever the
    collaborators do to the objects they are handed, a property of the
    two managers that each collaborator maintains holds after a call in
    which it held before, whether the call returns or raises. *)
Theorem optimize_maintains_managers_invariant (P : managers → Prop)
    f df f_df x_opt h r h' :
  collaborators_maintain P →
  P (managers_of h) →
  optimize f df f_df x_opt h = (r, h') →
  P (managers_of h').
Proof.
  intros (Hchoose & Hget & Happly) HP Hrun.
  assert (maintains (λ h, P (managers_of h)) (optimize f df f_df x_opt))
    as Hm; [|exact (Hm _ _ _ HP Hrun)].
  unfold optimize. upkeep.
  - apply maintains_call_bounds. intros cm dm. apply Hchoose.
  - apply maintains_call. intros m. apply Hget.
  - apply maintains_call. intros m. apply Happly.
Qed.

End optimize_behaviour.

(** * The further properties on concrete inputs *)

Section further_examples.
Import np AcquisitionOptimizer.

Lemma demo_space_objective_in_range : objective_indices_in_range demo_space.
Proof.
  intros name v Hv. simpl in Hv.
  repeat case_decide; simplify_eq/=; repeat constructor; lia.
Qed.

Lemma two_key_context_distinct : NoDup (keys two_key_context).
Proof.
  apply NoDup_cons. split; [|apply NoDup_singleton].
  by intros ?%list_elem_of_singleton.
Qed.

(** X1 on [picky_space]: the value of "a" is refused before the
    unknown key "zz" is looked up. *)
Lemma init_first_rejected_key_witness :
  keys [("a", 5%Q); ("zz", 1%Q)] = [] ++ "a" :: ["zz"]
  ∧ (∀ k', k' ∈ [] → key_accepted picky_space [("a", 5%Q); ("zz", 1%Q)] k')
  ∧ (find_variable picky_space "a" = inl IndexError
     ∨ ∃ v q, find_variable picky_space "a" = inr v
              ∧ dict_get [("a", 5%Q); ("zz", 1%Q)] "a" = inr q
              ∧ objective_to_model v q = inl IndexError)
  ∧ ContextManager.__init__ picky_space (Some [("a", 5%Q); ("zz", 1%Q)])
    = inl IndexError.
Proof.
  assert (∀ k', k' ∈ [] →
            key_accepted picky_space [("a", 5%Q); ("zz", 1%Q)] k') as Hpre
    by (by intros k' ?%elem_of_nil).
  assert (find_variable picky_space "a" = inl IndexError
          ∨ ∃ v q, find_variable picky_space "a" = inr v
                   ∧ dict_get [("a", 5%Q); ("zz", 1%Q)] "a" = inr q
                   ∧ objective_to_model v q = inl IndexError) as Hk.
  { right. eexists _, _. split; [reflexivity|]. split; reflexivity. }
  split; [reflexivity|]. split; [exact Hpre|]. split; [exact Hk|].
  exact (init_first_rejected_key picky_space [("a", 5%Q); ("zz", 1%Q)]
           [] "a" ["zz"] IndexError eq_refl Hpre Hk).
Defined.

Example unknown_key_example :
  find_variable demo_space "c" = inl (Exn "InvalidVariableNameError")
  ∧ ContextManager.__init__ demo_space
      (Some [("b", 3%Q); ("c", 1%Q); ("a", 2%Q)])
    = inl (Exn "InvalidVariableNameError")
  ∧ find_variable picky_space "zz" = inl (Exn "InvalidVariableNameError")
  ∧ ContextManager.__init__ picky_space (Some [("a", 1%Q); ("zz", 1%Q)])
    = inl (Exn "InvalidVariableNameError").
Proof. by vm_compute. Qed.

(** X2 on [demo_space] with both variables fixed. *)
Lemma init_context_concatenation_witness :
  NoDup (keys two_key_context)
  ∧ Forall2 (λ k v, find_variable demo_space k = inr v) (keys two_key_context)
      [SpaceVariable [2] [1] (λ q, inr [q]);
       SpaceVariable [0; 1] [0] (λ q, inr [q; (1 - q)%Q])]
  ∧ ContextManager.__init__ demo_space (Some two_key_context) = inr two_key_manager
  ∧ ContextManager.context_index two_key_manager = [2; 0; 1]
  ∧ ContextManager.context_index_obj two_key_manager = [1; 0]
  ∧ ∃ encoded,
      zip_with objective_to_model
        [SpaceVariable [2] [1] (λ q, inr [q]);
         SpaceVariable [0; 1] [0] (λ q, inr [q; (1 - q)%Q])]
        two_key_context.*2 = inr <$> encoded
      ∧ ContextManager.context_value two_key_manager = concat encoded.
Proof.
  assert (Forall2 (λ k v, find_variable demo_space k = inr v) (keys two_key_context)
            [SpaceVariable [2] [1] (λ q, inr [q]);
             SpaceVariable [0; 1] [0] (λ q, inr [q; (1 - q)%Q])]) as Hvars
    by (repeat constructor).
  split; [exact two_key_context_distinct|]. split; [exact Hvars|].
  split; [reflexivity|].
  exact (init_context_concatenation demo_space two_key_context _ two_key_manager
           two_key_context_distinct Hvars eq_refl).
Defined.

Example context_concatenation_example :
  ContextManager.context_value two_key_manager = [3; 1#2; (1 - (1#2))]%Q.
Proof. reflexivity. Qed.

(** X3 on [demo_manager]. *)
Lemma init_bounds_follow_index_witness :
  bounds_cover demo_space
  ∧ ContextManager.__init__ demo_space (Some [("b", 3%Q)]) = inr demo_manager
  ∧ length (ContextManager.noncontext_bounds demo_manager)
    = length (ContextManager.noncontext_index demo_manager)
  ∧ ∀ k c, ContextManager.noncontext_index demo_manager !! k = Some c →
      is_Some (ContextManager.noncontext_bounds demo_manager !! k)
      ∧ ContextManager.noncontext_bounds demo_manager !! k
        = get_bounds demo_space !! c.
Proof.
  split; [reflexivity|]. split; [reflexivity|].
  exact (init_bounds_follow_index demo_space (Some [("b", 3%Q)]) demo_manager
           eq_refl eq_refl).
Defined.

(** X4 on [demo_space]. *)
Lemma init_empty_context_witness :
  bounds_cover demo_space
  ∧ ContextManager.__init__ demo_space (Some [])
    = ContextManager.__init__ demo_space None.
Proof.
  split; [reflexivity|]. exact (init_empty_context demo_space eq_refl).
Defined.

(** X5 on [short_space]: dimension 2 is free and has no bound. *)
Lemma init_missing_bound_witness :
  (∀ k, k ∈ keys [("a", 1%Q)] → ∃ v, find_variable short_space k = inr v)
  ∧ context_encodable short_space [("a", 1%Q)]
  ∧ (∀ k v, k ∈ keys [("a", 1%Q)] → find_variable short_space k = inr v →
            2 ∉ index_in_model v)
  ∧ length (get_bounds short_space) ≤ 2 < model_dimensionality short_space
  ∧ ContextManager.__init__ short_space (Some [("a", 1%Q)]) = inl IndexError.
Proof.
  assert (∀ k, k ∈ keys [("a", 1%Q)] → ∃ v, find_variable short_space k = inr v)
    as Hknown.
  { intros k ->%list_elem_of_singleton. by eexists. }
  assert (context_encodable short_space [("a", 1%Q)]) as Henc.
  { intros k v q Hv Hq. simpl in Hv.
    repeat case_decide; simplify_eq/=; eauto. }
  assert (∀ k v, k ∈ keys [("a", 1%Q)] → find_variable short_space k = inr v →
                 2 ∉ index_in_model v) as Hfree.
  { intros k v ->%list_elem_of_singleton [= <-]. simpl.
    rewrite !elem_of_cons, elem_of_nil. lia. }
  assert (length (get_bounds short_space) ≤ 2 < model_dimensionality short_space)
    as Hlen by (simpl; lia).
  split; [exact Hknown|]. split; [exact Henc|].
  split; [exact Hfree|]. split; [exact Hlen|].
  exact (init_missing_bound short_space [("a", 1%Q)] 2 Hknown Henc Hfree Hlen).
Defined.

(** X6 on [demo_manager]. *)
Lemma objective_index_partition_witness :
  objective_indices_in_range demo_space
  ∧ ContextManager.__init__ demo_space (Some [("b", 3%Q)]) = inr demo_manager
  ∧ ContextManager.all_index_obj demo_manager
    = seq 0 (length (config_space_expanded demo_space))
  ∧ (∀ i, i ∈ ContextManager.all_index_obj demo_manager
          ↔ i ∈ ContextManager.context_index_obj demo_manager
            ∨ i ∈ ContextManager.nocontext_index_obj demo_manager)
  ∧ (∀ i, i ∈ ContextManager.context_index_obj demo_manager →
          i ∉ ContextManager.nocontext_index_obj demo_manager)
  ∧ sublist (ContextManager.nocontext_index_obj demo_manager)
      (ContextManager.all_index_obj demo_manager).
Proof.
  split; [exact demo_space_objective_in_range|]. split; [reflexivity|].
  exact (objective_index_partition demo_space [("b", 3%Q)] demo_manager
           demo_space_objective_in_range eq_refl).
Defined.

(** X7 on [demo_manager]: three columns where two are expected. *)
Lemma expand_vector_wrong_width_witness :
  ContextManager.__init__ demo_space (Some [("b", 3%Q)]) = inr demo_manager
  ∧ shape1 (atleast_2d (Vector [7; 8; 9]%Q))
    ≠ length (ContextManager.noncontext_index demo_manager)
  ∧ shape1 (atleast_2d (Vector [7; 8; 9]%Q)) ≠ 1
  ∧ ContextManager._expand_vector demo_manager (Vector [7; 8; 9]%Q)
    = inl ValueError.
Proof.
  assert (shape1 (atleast_2d (Vector [7; 8; 9]%Q))
          ≠ length (ContextManager.noncontext_index demo_manager)) as Hw
    by (simpl; lia).
  assert (shape1 (atleast_2d (Vector [7; 8; 9]%Q)) ≠ 1) as H1 by (simpl; lia).
  split; [reflexivity|]. split; [exact Hw|]. split; [exact H1|].
  exact (expand_vector_wrong_width demo_space (Some [("b", 3%Q)]) demo_manager
           (Vector [7; 8; 9]%Q) eq_refl Hw H1).
Defined.

(** X8 on [misaligned_manager]: three values for two context indices. *)
Lemma expand_vector_misaligned_context_witness :
  ContextManager.__init__ misaligned_space (Some [("a", 1%Q)])
    = inr misaligned_manager
  ∧ (shape1 (atleast_2d (Vector [7%Q]))
       = length (ContextManager.noncontext_index misaligned_manager)
     ∨ shape1 (atleast_2d (Vector [7%Q])) = 1)
  ∧ Forall (λ c, c < model_dimensionality misaligned_space)
      (ContextManager.context_index misaligned_manager)
  ∧ length (ContextManager.context_value misaligned_manager)
    ≠ length (ContextManager.context_index misaligned_manager)
  ∧ length (ContextManager.context_value misaligned_manager) ≠ 1
  ∧ ContextManager._expand_vector misaligned_manager (Vector [7%Q])
    = inl ValueError.
Proof.
  assert (length (ContextManager.context_value misaligned_manager)
          ≠ length (ContextManager.context_index misaligned_manager)) as Hcv
    by (simpl; lia).
  assert (length (ContextManager.context_value misaligned_manager) ≠ 1) as Hcv1
    by (simpl; lia).
  assert (Forall (λ c, c < model_dimensionality misaligned_space)
            (ContextManager.context_index misaligned_manager)) as Hci
    by (repeat constructor).
  split; [reflexivity|]. split; [by left|]. split; [exact Hci|].
  split; [exact Hcv|]. split; [exact Hcv1|].
  exact (expand_vector_misaligned_context misaligned_space (Some [("a", 1%Q)])
           misaligned_manager (Vector [7%Q]) eq_refl (or_introl eq_refl)
           Hci Hcv Hcv1).
Defined.

(** X9 on [stray_manager]: context index 5 in a space of 2 dimensions. *)
Lemma expand_vector_context_index_out_of_range_witness :
  ContextManager.__init__ stray_space (Some [("a", 1%Q)]) = inr stray_manager
  ∧ (shape1 (atleast_2d (Vector [7; 8]%Q))
       = length (ContextManager.noncontext_index stray_manager)
     ∨ shape1 (atleast_2d (Vector [7; 8]%Q)) = 1)
  ∧ (length (ContextManager.context_value stray_manager)
       = length (ContextManager.context_index stray_manager)
     ∨ length (ContextManager.context_value stray_manager) = 1)
  ∧ 5 ∈ ContextManager.context_index stray_manager
  ∧ model_dimensionality stray_space ≤ 5
  ∧ ContextManager._expand_vector stray_manager (Vector [7; 8]%Q)
    = inl IndexError.
Proof.
  assert (5 ∈ ContextManager.context_index stray_manager) as Hc
    by (by apply list_elem_of_singleton).
  assert (model_dimensionality stray_space ≤ 5) as Hlen by (simpl; lia).
  split; [reflexivity|]. split; [by left|]. split; [by left|].
  split; [exact Hc|]. split; [exact Hlen|].
  exact (expand_vector_context_index_out_of_range stray_space
           (Some [("a", 1%Q)]) stray_manager (Vector [7; 8]%Q) 5 eq_refl
           (or_introl eq_refl) (or_introl eq_refl) Hc Hlen).
Defined.

(** X10 on [demo_manager] and a batch of two rows. *)
Lemma expand_vector_row_by_row_witness :
  well_shaped (NdArray 2 2 [[7; 8]; [9; 10]]%Q)
  ∧ ContextManager._expand_vector demo_manager
      (Matrix (NdArray 2 2 [[7; 8]; [9; 10]]%Q))
    = inr (NdArray 2 3 [[7; 8; 3]; [9; 10; 3]]%Q)
  ∧ rows (NdArray 2 2 [[7; 8]; [9; 10]]%Q) !! 1 = Some [9; 10]%Q
  ∧ ∃ yi, rows (NdArray 2 3 [[7; 8; 3]; [9; 10; 3]]%Q) !! 1 = Some yi
      ∧ ContextManager._expand_vector demo_manager (Vector [9; 10]%Q)
        = inr (NdArray 1
                 (model_dimensionality (ContextManager.space demo_manager)) [yi]).
Proof.
  assert (well_shaped (NdArray 2 2 [[7; 8]; [9; 10]]%Q)) as Hws
    by (split; [reflexivity|by repeat constructor]).
  split; [exact Hws|]. split; [reflexivity|]. split; [reflexivity|].
  exact (expand_vector_row_by_row demo_manager _ _ 1 _ Hws eq_refl eq_refl).
Defined.

(** X12 on [demo_manager]: the single entry 7 fills both free columns. *)
Lemma expand_vector_broadcasts_column_witness :
  indices_in_range demo_space
  ∧ encoding_aligned demo_space
  ∧ ContextManager.__init__ demo_space (Some [("b", 3%Q)]) = inr demo_manager
  ∧ well_shaped (atleast_2d (Vector [7%Q]))
  ∧ shape1 (atleast_2d (Vector [7%Q])) = 1
  ∧ ∃ y, ContextManager._expand_vector demo_manager (Vector [7%Q]) = inr y
      ∧ shape0 y = shape0 (atleast_2d (Vector [7%Q]))
      ∧ shape1 y = model_dimensionality demo_space
      ∧ ∀ i k c, i < shape0 y →
          ContextManager.noncontext_index demo_manager !! k = Some c →
          is_Some (entry y i c)
          ∧ entry y i c = entry (atleast_2d (Vector [7%Q])) i 0.
Proof.
  split; [exact demo_space_in_range|]. split; [exact demo_space_aligned|].
  split; [reflexivity|].
  split; [apply well_shaped_atleast_2d_vector|]. split; [reflexivity|].
  exact (expand_vector_broadcasts_column demo_space (Some [("b", 3%Q)])
           demo_manager (Vector [7%Q]) demo_space_in_range demo_space_aligned
           eq_refl (well_shaped_atleast_2d_vector _) eq_refl).
Defined.

Example expand_vector_broadcast_example :
  ContextManager._expand_vector demo_manager (Vector [7%Q])
  = inr (NdArray 1 3 [[7; 7; 3]%Q]).
Proof. reflexivity. Qed.

(** X13 on the unit square. *)
Lemma optimize_thompson_without_model_witness :
  thompson_kwargs !! "type_anchor_points_logic" = Some (PyStr "thompson_sampling")
  ∧ thompson_kwargs !! "model" = None
  ∧ ∃ s, __init__ unit_square None thompson_kwargs = inr s
      ∧ type_anchor_points_logic s = PyStr "thompson_sampling"
      ∧ model s = Absent
      ∧ ∀ h f df f_df x_opt,
          type_anchor_points_logic (this h) = PyStr "thompson_sampling" →
          model (this h) = Absent →
          ∃ e h', optimize f df f_df x_opt h = (inl e, h')
            ∧ type_anchor_points_logic (this h') = PyStr "thompson_sampling"
            ∧ model (this h') = Absent
            ∧ match (choose_optimizer (optimizer_name (this h))
                       (ContextManager.noncontext_bounds (context_manager (this h)))).1
              with
              | inr _ => e = AttributeError
              | inl e0 => e = e0
              end.
Proof.
  assert (thompson_kwargs !! "type_anchor_points_logic"
          = Some (PyStr "thompson_sampling")) as Hkw by (vm_compute; reflexivity).
  assert (thompson_kwargs !! "model" = None) as Hmodel
    by (vm_compute; reflexivity).
  split; [exact Hkw|]. split; [exact Hmodel|].
  exact (optimize_thompson_without_model unit_square None thompson_kwargs
           Hkw Hmodel).
Defined.

Example thompson_without_model_example :
  (s ← __init__ unit_square None thompson_kwargs;
   mret (optimize (Some toy_f) None None None (Heap s None [])).1)
  = inr (inl AttributeError).
Proof. by vm_compute. Qed.

(** X14 on the unit square with the back end "bogus". *)
Lemma optimize_choose_optimizer_fails_witness :
  choose_optimizer (optimizer_name (this bogus_start))
    (ContextManager.noncontext_bounds (context_manager (this bogus_start)))
  = (inl (Exn "InvalidConfigError"), [(0, 1); (0, 1)]%Q)
  ∧ optimize (Some toy_f) (Some toy_df) None None bogus_start
    = (inl (Exn "InvalidConfigError"),
       Heap (with_context_manager
               (ContextManager.with_noncontext_bounds [(0, 1); (0, 1)]%Q
                  (context_manager (this bogus_start)))
               (with_f_df None (with_df (Some toy_df)
                                  (with_f (Some toy_f) (this bogus_start)))))
            (duplicate_manager bogus_start) (stdout bogus_start)).
Proof.
  split; [reflexivity|].
  exact (optimize_choose_optimizer_fails (Some toy_f) (Some toy_df) None None
           bogus_start (Exn "InvalidConfigError") [(0, 1); (0, 1)]%Q eq_refl).
Defined.

(** X15 on the unit square without an objective: the toy run of the
    first anchor raises [TypeError]. *)
Lemma optimize_stops_at_failing_anchor_witness :
  anchor_points_phase None None None None (toy_start None)
    = (inr ([] ++ [0; 0]%Q :: [[1; 1]; [1#4; 1#4]; [3#4; 3#4]; [1#8; 1#8]]%Q),
       (anchor_points_phase None None None None (toy_start None)).2)
  ∧ optimized_points_phase None None []
      (anchor_points_phase None None None None (toy_start None)).2
    = (inr [], (anchor_points_phase None None None None (toy_start None)).2)
  ∧ optimized_points_phase None None [[0; 0]%Q]
      (anchor_points_phase None None None None (toy_start None)).2
    = (inl (Exn "TypeError"),
       (optimized_points_phase None None [[0; 0]%Q]
          (anchor_points_phase None None None None (toy_start None)).2).2)
  ∧ optimize None None None None (toy_start None)
    = (inl (Exn "TypeError"),
       (optimized_points_phase None None [[0; 0]%Q]
          (anchor_points_phase None None None None (toy_start None)).2).2).
Proof.
  assert (anchor_points_phase None None None None (toy_start None)
          = (inr ([] ++ [0; 0]%Q :: [[1; 1]; [1#4; 1#4]; [3#4; 3#4]; [1#8; 1#8]]%Q),
             (anchor_points_phase None None None None (toy_start None)).2)) as Ha
    by (vm_compute; reflexivity).
  assert (optimized_points_phase None None [[0; 0]%Q]
            (anchor_points_phase None None None None (toy_start None)).2
          = (inl (Exn "TypeError"),
             (optimized_points_phase None None [[0; 0]%Q]
                (anchor_points_phase None None None None (toy_start None)).2).2))
    as Hf by (vm_compute; reflexivity).
  split; [exact Ha|]. split; [reflexivity|]. split; [exact Hf|].
  exact (optimize_stops_at_failing_anchor _ _ _ _ _ _ _ _ _ _ _ _ _
           Ha eq_refl Hf).
Defined.

(** X16 on the unit square with every candidate known. *)
Lemma optimize_raise_keeps_counter_witness :
  optimize (Some toy_f) None None None (toy_start (Some toy_anchors))
    = (inl ValueError,
       (optimize (Some toy_f) None None None (toy_start (Some toy_anchors))).2)
  ∧ spec_win_cnt
      (this (optimize (Some toy_f) None None None
               (toy_start (Some toy_anchors))).2)
    = spec_win_cnt (this (toy_start (Some toy_anchors)))
  ∧ stdout (optimize (Some toy_f) None None None
              (toy_start (Some toy_anchors))).2
    = stdout (toy_start (Some toy_anchors)).
Proof.
  assert (optimize (Some toy_f) None None None (toy_start (Some toy_anchors))
          = (inl ValueError,
             (optimize (Some toy_f) None None None
                (toy_start (Some toy_anchors))).2)) as Hrun
    by (vm_compute; reflexivity).
  split; [exact Hrun|].
  exact (optimize_raise_keeps_counter _ _ _ _ _ _ _ Hrun).
Defined.

(** X17 on the unit square: five anchors, no [x_opt]. *)
Lemma optimize_few_anchors_witness :
  anchor_points_phase (Some toy_f) None None None (toy_start None)
    = (inr toy_anchors, toy_after_anchors None None)
  ∧ length toy_anchors ≤ 5
  ∧ optimize (Some toy_f) None None None (toy_start None)
    = ((optimize (Some toy_f) None None None (toy_start None)).1,
       (optimize (Some toy_f) None None None (toy_start None)).2)
  ∧ spec_win_cnt (this (optimize (Some toy_f) None None None (toy_start None)).2)
    = spec_win_cnt (this (toy_start None))
  ∧ stdout (optimize (Some toy_f) None None None (toy_start None)).2
    = stdout (toy_start None).
Proof.
  assert (anchor_points_phase (Some toy_f) None None None (toy_start None)
          = (inr toy_anchors, toy_after_anchors None None)) as Ha
    by (vm_compute; reflexivity).
  assert (length toy_anchors ≤ 5) as Hfew by (vm_compute; lia).
  split; [exact Ha|]. split; [exact Hfew|]. split; [apply surjective_pairing|].
  exact (optimize_few_anchors _ _ _ _ _ _ _ _ _ Ha Hfew (surjective_pairing _)).
Defined.

(** X18 on the unit square with [x_opt] the optimum. *)
Lemma optimize_prints_new_count_witness :
  optimize (Some toy_f) None None (Some half_half) (toy_start None)
    = (inr (half_half, toy_f half_half),
       (optimize (Some toy_f) None None (Some half_half) (toy_start None)).2)
  ∧ ((spec_win_cnt
        (this (optimize (Some toy_f) None None (Some half_half)
                 (toy_start None)).2)
      = spec_win_cnt (this (toy_start None))
      ∧ stdout (optimize (Some toy_f) None None (Some half_half)
                  (toy_start None)).2
        = stdout (toy_start None))
     ∨ (spec_win_cnt
          (this (optimize (Some toy_f) None None (Some half_half)
                   (toy_start None)).2)
        = (spec_win_cnt (this (toy_start None)) + 1)%Z
        ∧ stdout (optimize (Some toy_f) None None (Some half_half)
                    (toy_start None)).2
          = stdout (toy_start None)
            ++ ["specified anchors win "
                +:+ pretty (spec_win_cnt
                              (this (optimize (Some toy_f) None None
                                       (Some half_half) (toy_start None)).2))])).
Proof.
  assert (optimize (Some toy_f) None None (Some half_half) (toy_start None)
          = (inr (half_half, toy_f half_half),
             (optimize (Some toy_f) None None (Some half_half)
                (toy_start None)).2)) as Hrun
    by (vm_compute; reflexivity).
  split; [exact Hrun|].
  exact (optimize_prints_new_count _ _ _ _ _ _ _ Hrun).
Defined.

(** X19 on the unit square. *)
Lemma optimize_stores_arguments_witness :
  optimize (Some toy_f) (Some toy_df) None None (toy_start None)
    = ((optimize (Some toy_f) (Some toy_df) None None (toy_start None)).1,
       (optimize (Some toy_f) (Some toy_df) None None (toy_start None)).2)
  ∧ AcquisitionOptimizer.f
      (this (optimize (Some toy_f) (Some toy_df) None None (toy_start None)).2)
    = Attr (Some toy_f)
  ∧ AcquisitionOptimizer.df
      (this (optimize (Some toy_f) (Some toy_df) None None (toy_start None)).2)
    = Attr (Some toy_df)
  ∧ AcquisitionOptimizer.f_df
      (this (optimize (Some toy_f) (Some toy_df) None None (toy_start None)).2)
    = Attr None
  ∧ space (this (optimize (Some toy_f) (Some toy_df) None None (toy_start None)).2)
    = space (this (toy_start None))
  ∧ optimizer_name
      (this (optimize (Some toy_f) (Some toy_df) None None (toy_start None)).2)
    = optimizer_name (this (toy_start None))
  ∧ kwargs (this (optimize (Some toy_f) (Some toy_df) None None (toy_start None)).2)
    = kwargs (this (toy_start None))
  ∧ model (this (optimize (Some toy_f) (Some toy_df) None None (toy_start None)).2)
    = model (this (toy_start None))
  ∧ type_anchor_points_logic
      (this (optimize (Some toy_f) (Some toy_df) None None (toy_start None)).2)
    = type_anchor_points_logic (this (toy_start None)).
Proof.
  split; [apply surjective_pairing|].
  exact (optimize_stores_arguments _ _ _ _ _ _ _ (surjective_pairing _)).
Defined.

(** X20 on the unit square. *)
Lemma anchor_points_max_objective_witness :
  type_anchor_points_logic (this (toy_start None)) = PyStr "max_objective"
  ∧ choose_optimizer (optimizer_name (this (toy_start None)))
      (ContextManager.noncontext_bounds (context_manager (this (toy_start None))))
    = (inr "lbfgs", [(0, 1); (0, 1)]%Q)
  ∧ (anchor_points_phase (Some toy_f) None None (Some half_half) (toy_start None)).1
    = (anchor_points_get
         (ObjectiveAnchorPointsGenerator (space (this (toy_start None))) "random"
            (Some toy_f))
         (Some half_half)
         (Managers
            (ContextManager.with_noncontext_bounds [(0, 1); (0, 1)]%Q
               (context_manager (this (toy_start None))))
            (duplicate_manager (toy_start None)))).1.
Proof.
  split; [reflexivity|]. split; [reflexivity|].
  exact (anchor_points_max_objective (Some toy_f) None None (Some half_half)
           (toy_start None) "lbfgs" [(0, 1); (0, 1)]%Q eq_refl eq_refl).
Defined.

(** X21 on the unit square. *)
Lemma anchor_points_thompson_sampling_witness :
  type_anchor_points_logic (this thompson_start) = PyStr "thompson_sampling"
  ∧ model (this thompson_start) = Attr (PyModel ())
  ∧ choose_optimizer (optimizer_name (this thompson_start))
      (ContextManager.noncontext_bounds (context_manager (this thompson_start)))
    = (inr "lbfgs", [(0, 1); (0, 1)]%Q)
  ∧ (anchor_points_phase (Some toy_f) None None None thompson_start).1
    = (anchor_points_get
         (ThompsonSamplingAnchorPointsGenerator (space (this thompson_start))
            "sobol" (PyModel ()))
         None
         (Managers
            (ContextManager.with_noncontext_bounds [(0, 1); (0, 1)]%Q
               (context_manager (this thompson_start)))
            (duplicate_manager thompson_start))).1.
Proof.
  assert (type_anchor_points_logic (this thompson_start)
          = PyStr "thompson_sampling") as Hlogic by (vm_compute; reflexivity).
  assert (model (this thompson_start) = Attr (PyModel ())) as Hmodel
    by (vm_compute; reflexivity).
  split; [exact Hlogic|]. split; [exact Hmodel|]. split; [reflexivity|].
  exact (anchor_points_thompson_sampling (Some toy_f) None None None
           thompson_start "lbfgs" [(0, 1); (0, 1)]%Q (PyModel ())
           Hlogic Hmodel eq_refl).
Defined.

Lemma recording_collaborators_maintain :
  @collaborators_maintain _ recording_collaborators knows_half_half.
Proof.
  split; [|split].
  - intros name [] dm [Hcm Hdm]. simpl in *.
    unfold toy_choose_optimizer. by case_bool_decide.
  - by intros g x_opt m.
  - intros c m [Hcm Hdm]. simpl. unfold recording_apply.
    destruct (toy_apply c m).1 as [e|[x fx]]; [done|].
    split; [done|]. simpl. apply elem_of_app. by left.
Qed.

(** X22 on the unit square, with an optimizer run that records its
    result in the duplicate manager: the duplicate manager grows during
    the call and still knows the point it knew. *)
Lemma optimize_maintains_managers_invariant_witness :
  @collaborators_maintain _ recording_collaborators knows_half_half
  ∧ knows_half_half (managers_of (toy_start (Some [half_half])))
  ∧ @optimize _ recording_collaborators (Some toy_f) None None None
      (toy_start (Some [half_half]))
    = ((@optimize _ recording_collaborators (Some toy_f) None None None
          (toy_start (Some [half_half]))).1,
       (@optimize _ recording_collaborators (Some toy_f) None None None
          (toy_start (Some [half_half]))).2)
  ∧ knows_half_half
      (managers_of
         (@optimize _ recording_collaborators (Some toy_f) None None None
            (toy_start (Some [half_half]))).2).
Proof.
  assert (knows_half_half (managers_of (toy_start (Some [half_half]))))
    as Hstart by (split; [reflexivity|by left]).
  split; [exact recording_collaborators_maintain|]. split; [exact Hstart|].
  split; [apply surjective_pairing|].
  exact (@optimize_maintains_managers_invariant _ recording_collaborators
           knows_half_half _ _ _ _ _ _ _
           recording_collaborators_maintain Hstart (surjective_pairing _)).
Defined.

Example recording_run_example :
  duplicate_manager
    (@optimize _ recording_collaborators (Some toy_f) None None None
       (toy_start (Some [half_half]))).2
  = Some (half_half :: toy_anchors).
Proof. by vm_compute. Qed.

End further_examples.
